(** * RefactorLens analysis core: element mapping, diffing, classification,
      impact scoring and risk scanning.

    Shallow embedding of
      - src/analyzers/astAnalyzer.js        (class ASTAnalyzer)
      - src/analyzers/refactorClassifier.js (classes RefactorClassifier and
                                             SecurityScanner)
      - the ImpactScorer class and the analysis service that chains them.

    Conventions of the embedding.
      - A JavaScript string is a [string] (a sequence of 8-bit characters);
        [charAt], [length], [includes] and [toLowerCase] are read on that
        sequence, which agrees with JavaScript on ASCII text.
      - The numbers of the mapper and of the classifier (similarities,
        confidences) are exact rationals [Q]; the numbers of the scorer, which
        calls [Math.exp], are real numbers [R].  Rounding of IEEE doubles is
        not modelled.
      - A syntax-tree object is identified by its position in its tree (the
        path of child indices from the root): [normalizeAST] allocates one
        fresh object per position, so two references denote the same object
        exactly when their paths agree.
      - A JavaScript [Map] is an association list in insertion order.
      - What the code calls outside the repository is a parameter: the
        tree-sitter parsers, [diffLines] and [createPatch] of the [diff]
        package, and the regular-expression engine behind [String.match]. *)

From Stdlib Require Import List String Ascii Bool Arith ZArith QArith Qminmax.
From Stdlib Require Import Lia Lqa DecimalString Permutation Sorted.
From Stdlib Require Import Reals Lra.
Import ListNotations.

#[local] Set Warnings "-register-all".
Close Scope Q_scope.
Close Scope R_scope.
Open Scope string_scope.
Open Scope list_scope.
Open Scope nat_scope.

(* ================================================================== *)
(** * Part I: definitions                                              *)
(* ================================================================== *)

(** ** JavaScript string and array primitives *)

Module JS.

(** The double-quote and the backslash characters. *)
Definition dq : string := String (ascii_of_nat 34) EmptyString.
Definition bs : string := String (ascii_of_nat 92) EmptyString.
Definition nl : string := String (ascii_of_nat 10) EmptyString.

(** [s.includes(pat)] *)
Fixpoint includes (s pat : string) : bool :=
  if String.prefix pat s then true
  else match s with
       | EmptyString => false
       | String _ s' => includes s' pat
       end.

Definition lowerChar (c : ascii) : ascii :=
  let n := nat_of_ascii c in
  if (65 <=? n) && (n <=? 90) then ascii_of_nat (n + 32) else c.

(** [s.toLowerCase()] *)
Fixpoint toLowerCase (s : string) : string :=
  match s with
  | EmptyString => EmptyString
  | String c s' => String (lowerChar c) (toLowerCase s')
  end.

(** Number-to-string conversion of a non-negative integer, as in a template
    literal. *)
Definition numberToString (n : nat) : string :=
  NilZero.string_of_uint (Nat.to_uint n).

(** [arr.join(sep)] *)
Fixpoint join (sep : string) (l : list string) : string :=
  match l with
  | [] => EmptyString
  | [x] => x
  | x :: l' => x ++ sep ++ join sep l'
  end.

(** [arr.includes(item)] on an array of strings. *)
Definition arrayIncludes (arr : list string) (item : string) : bool :=
  existsb (String.eqb item) arr.

(** Truthiness of a possibly-null string: null and the empty string are
    falsy. *)
Definition truthy (s : option string) : bool :=
  match s with
  | Some s' => negb (String.eqb s' EmptyString)
  | None => false
  end.

(** [s || ''] *)
Definition orEmpty (s : option string) : string :=
  match s with Some s' => s' | None => EmptyString end.

(** [[...new Set(arr)]]: duplicates removed, first occurrences kept in
    order. *)
Fixpoint uniq (seen : list string) (arr : list string) : list string :=
  match arr with
  | [] => []
  | x :: arr' =>
      if arrayIncludes seen x then uniq seen arr'
      else x :: uniq (x :: seen) arr'
  end.

Definition Qltb (x y : Q) : bool := negb (Qle_bool y x).

End JS.

(** ** The normalized syntax tree (astAnalyzer.js, normalizeAST) *)

Module AST.

(** The [metadata] object.  [extractMetadata] also creates the fields
    [returnType: null], [modifiers: []], [annotations: []] and
    [dependencies: []]; no extractor ever assigns them, so they are constant
    and appear only in the serialization below. *)
Record Metadata := mkMetadata {
  name : option string;
  parameters : list string;
  imports : list string
}.

Definition emptyMetadata : Metadata := mkMetadata None [] [].

(** A normalized node.  The [startPosition] and [endPosition] fields are
    copied by [normalizeAST] and never read by the mapper, the differ, the
    classifier or the scorer; they are left out. *)
Inductive Node : Type := mkNode {
  type : string;
  text : string;
  language : string;
  metadata : Metadata;
  children : list Node
}.

(** A tree-sitter syntax node, as far as [normalizeAST] reads it: its type,
    its text, the field name under which its parent holds it, and its
    children. *)
Inductive SyntaxNode : Type := mkSyntaxNode {
  sn_type : string;
  sn_text : string;
  sn_field : option string;
  sn_children : list SyntaxNode
}.

Definition childForFieldName (node : SyntaxNode) (field : string)
  : option SyntaxNode :=
  find (fun c => match sn_field c with
                 | Some f => String.eqb f field
                 | None => false
                 end) (sn_children node).

Definition extractParameters (paramsNode : SyntaxNode) : list string :=
  map sn_text
      (filter (fun child => JS.includes (sn_type child) "parameter")
              (sn_children paramsNode)).

Definition withName (field : string) (node : SyntaxNode) (m : Metadata)
  : Metadata :=
  match childForFieldName node field with
  | Some nameNode => mkMetadata (Some (sn_text nameNode)) (parameters m) (imports m)
  | None => m
  end.

Definition withParameters (node : SyntaxNode) (m : Metadata) : Metadata :=
  match childForFieldName node "parameters" with
  | Some paramsNode => mkMetadata (name m) (extractParameters paramsNode) (imports m)
  | None => m
  end.

Definition withImport (node : SyntaxNode) (m : Metadata) : Metadata :=
  mkMetadata (name m) (parameters m) (imports m ++ [sn_text node]).

Definition extractJavaScriptMetadata (node : SyntaxNode) (m : Metadata)
  : Metadata :=
  let m1 :=
    if String.eqb (sn_type node) "function_declaration"
       || String.eqb (sn_type node) "function"
    then withParameters node (withName "name" node m) else m in
  if String.eqb (sn_type node) "import_statement" then withImport node m1
  else m1.

Definition extractJavaMetadata (node : SyntaxNode) (m : Metadata) : Metadata :=
  let m1 :=
    if String.eqb (sn_type node) "class_declaration"
    then withName "name" node m else m in
  let m2 :=
    if String.eqb (sn_type node) "method_declaration"
    then withParameters node (withName "name" node m1) else m1 in
  if String.eqb (sn_type node) "import_declaration" then withImport node m2
  else m2.

Definition extractPythonMetadata (node : SyntaxNode) (m : Metadata)
  : Metadata :=
  let m1 :=
    if String.eqb (sn_type node) "function_definition"
    then withParameters node (withName "name" node m) else m in
  if String.eqb (sn_type node) "import_statement"
     || String.eqb (sn_type node) "import_from_statement"
  then withImport node m1 else m1.

Definition extractCMetadata (node : SyntaxNode) (m : Metadata) : Metadata :=
  let m1 :=
    if String.eqb (sn_type node) "function_definition"
    then withParameters node (withName "declarator" node m) else m in
  if String.eqb (sn_type node) "preproc_include" then withImport node m1
  else m1.

Definition extractMetadata (node : SyntaxNode) (lang : string) : Metadata :=
  if String.eqb lang "javascript" then extractJavaScriptMetadata node emptyMetadata
  else if String.eqb lang "java" then extractJavaMetadata node emptyMetadata
  else if String.eqb lang "python" then extractPythonMetadata node emptyMetadata
  else if String.eqb lang "c" || String.eqb lang "cpp"
       then extractCMetadata node emptyMetadata
  else emptyMetadata.

Fixpoint normalizeAST (node : SyntaxNode) (lang : string) : Node :=
  match node with
  | mkSyntaxNode ty tx _ cs =>
      mkNode ty tx lang (extractMetadata node lang)
             (map (fun child => normalizeAST child lang) cs)
  end.

(** *** JSON.stringify on a metadata object *)

Definition hexDigit (n : nat) : string :=
  String (ascii_of_nat (if n <? 10 then 48 + n else 87 + n)) EmptyString.

Definition escapeChar (c : ascii) : string :=
  let n := nat_of_ascii c in
  if n =? 34 then JS.bs ++ JS.dq
  else if n =? 92 then JS.bs ++ JS.bs
  else if n =? 8 then JS.bs ++ "b"
  else if n =? 9 then JS.bs ++ "t"
  else if n =? 10 then JS.bs ++ "n"
  else if n =? 12 then JS.bs ++ "f"
  else if n =? 13 then JS.bs ++ "r"
  else if n <? 32 then JS.bs ++ "u00" ++ hexDigit (n / 16) ++ hexDigit (n mod 16)
  else String c EmptyString.

Fixpoint escape (s : string) : string :=
  match s with
  | EmptyString => EmptyString
  | String c s' => escapeChar c ++ escape s'
  end.

Definition jsonString (s : string) : string := JS.dq ++ escape s ++ JS.dq.

Definition jsonStringArray (l : list string) : string :=
  "[" ++ JS.join "," (map jsonString l) ++ "]".

Definition jsonKey (k : string) : string := JS.dq ++ k ++ JS.dq ++ ":".

Definition stringifyMetadata (m : Metadata) : string :=
  "{" ++ jsonKey "name"
      ++ match name m with Some s => jsonString s | None => "null" end
  ++ "," ++ jsonKey "parameters" ++ jsonStringArray (parameters m)
  ++ "," ++ jsonKey "returnType" ++ "null"
  ++ "," ++ jsonKey "modifiers" ++ "[]"
  ++ "," ++ jsonKey "annotations" ++ "[]"
  ++ "," ++ jsonKey "imports" ++ jsonStringArray (imports m)
  ++ "," ++ jsonKey "dependencies" ++ "[]"
  ++ "}".

(** *** Object references *)

Definition Path := list nat.

(** A reference to a node object: where the object sits in its tree, and the
    object read through the reference. *)
Record Ref := mkRef { path : Path; node : Node }.

(** [===] on two references into the same tree. *)
Definition sameObject (r1 r2 : Ref) : bool :=
  if list_eq_dec Nat.eq_dec (path r1) (path r2) then true else false.

End AST.

(** ** Element mapper (astAnalyzer.js, mapElements and its helpers) *)

Module Mapper.
Import AST.

(** *** levenshteinDistance

    The matrix is built row by row.  [firstRow] is row 0 after the two
    initialisation loops; [fillRow] runs the inner loop over [j] for one
    [i], reading the previous row ([diag] is [matrix[i-1][j-1]], [up] is
    [matrix[i-1][j]]) and the cell just written ([left], [matrix[i][j-1]]). *)

Definition min3 (a b c : nat) : nat := Nat.min (Nat.min a b) c.

Definition firstRow (str1 : list ascii) : list nat :=
  seq 0 (S (List.length str1)).

Fixpoint fillRow (c2 : ascii) (str1 : list ascii) (prev : list nat)
                 (left : nat) : list nat :=
  match str1, prev with
  | c1 :: str1', diag :: ((up :: _) as prev') =>
      let cell :=
        if Ascii.eqb c2 c1 then diag
        else min3 (diag + 1) (left + 1) (up + 1) in
      cell :: fillRow c2 str1' prev' cell
  | _, _ => []
  end.

Definition nextRow (i : nat) (c2 : ascii) (str1 : list ascii)
                   (prev : list nat) : list nat :=
  i :: fillRow c2 str1 prev i.

Fixpoint fillMatrix (i : nat) (str2 : list ascii) (str1 : list ascii)
                    (prev : list nat) : list nat :=
  match str2 with
  | [] => prev
  | c2 :: str2' => fillMatrix (S i) str2' str1 (nextRow (S i) c2 str1 prev)
  end.

(** [matrix[str2.length][str1.length]]: the last cell of the last row. *)
Definition levenshteinCells (str1 str2 : list ascii) : nat :=
  last (fillMatrix 0 str2 str1 (firstRow str1)) 0.

Definition levenshteinDistance (str1 str2 : string) : nat :=
  levenshteinCells (list_ascii_of_string str1) (list_ascii_of_string str2).

(** *** calculateArraySimilarity *)

Definition intersection (arr1 arr2 : list string) : list string :=
  filter (fun item => JS.arrayIncludes arr2 item) arr1.

Definition ofNat (n : nat) : Q := inject_Z (Z.of_nat n).

Definition calculateArraySimilarity (arr1 arr2 : list string) : Q :=
  if (List.length arr1 =? 0) && (List.length arr2 =? 0) then 1.0%Q
  else if (List.length arr1 =? 0) || (List.length arr2 =? 0) then 0.0%Q
  else (ofNat (List.length (intersection arr1 arr2))
        / ofNat (Nat.max (List.length arr1) (List.length arr2)))%Q.

(** *** calculateSimilarity *)

Definition nameSimilarity (name1 name2 : string) : Q :=
  let distance := levenshteinDistance name1 name2 in
  let maxLength := Nat.max (String.length name1) (String.length name2) in
  if 0 <? maxLength then (1 - ofNat distance / ofNat maxLength)%Q else 0%Q.

Definition typeSimilarity (node1 node2 : Node) : Q :=
  if String.eqb (type node1) (type node2) then 1.0%Q else 0.5%Q.

Definition calculateSimilarity (node1 node2 : Node) : Q :=
  let name1 := JS.orEmpty (name (metadata node1)) in
  let name2 := JS.orEmpty (name (metadata node2)) in
  if String.eqb name1 name2 then 1.0%Q
  else
    let paramSimilarity :=
      calculateArraySimilarity (parameters (metadata node1))
                               (parameters (metadata node2)) in
    (nameSimilarity name1 name2 * 0.5
     + typeSimilarity node1 node2 * 0.3
     + paramSimilarity * 0.2)%Q.

(** *** Tree traversals

    Each traversal carries the path of the node it visits, so that what it
    returns are references to the objects of the tree. *)

Fixpoint findNodeByNameAt (p : Path) (ast : Node) (nm : string)
  : option Ref :=
  match ast with
  | mkNode _ _ _ md cs =>
      if match name md with Some s => String.eqb s nm | None => false end
      then Some (mkRef p ast)
      else
        (fix children_loop (i : nat) (l : list Node) : option Ref :=
           match l with
           | [] => None
           | child :: l' =>
               match findNodeByNameAt (p ++ [i]) child nm with
               | Some found => Some found
               | None => children_loop (S i) l'
               end
           end) 0 cs
  end.

Definition findNodeByName (ast : Node) (nm : string) : option Ref :=
  findNodeByNameAt [] ast nm.

Fixpoint collectNamedNodesAt (p : Path) (ast : Node) : list Ref :=
  match ast with
  | mkNode _ _ _ md cs =>
      (if JS.truthy (name md) then [mkRef p ast] else [])
      ++ (fix children_loop (i : nat) (l : list Node) : list Ref :=
            match l with
            | [] => []
            | child :: l' =>
                collectNamedNodesAt (p ++ [i]) child ++ children_loop (S i) l'
            end) 0 cs
  end.

Definition collectNamedNodes (ast : Node) : list Ref :=
  collectNamedNodesAt [] ast.

Fixpoint collectAllNodesAt (p : Path) (ast : Node) : list Ref :=
  match ast with
  | mkNode _ _ _ _ cs =>
      mkRef p ast
      :: (fix children_loop (i : nat) (l : list Node) : list Ref :=
            match l with
            | [] => []
            | child :: l' =>
                collectAllNodesAt (p ++ [i]) child ++ children_loop (S i) l'
            end) 0 cs
  end.

Definition collectAllNodes (ast : Node) : list Ref :=
  collectAllNodesAt [] ast.

(** *** findBestMatch

    The loop state is the pair [bestMatch] (null, or a candidate with its
    similarity) and [bestSimilarity] (0 while [bestMatch] is null). *)

Definition BestMatch := option (Ref * Q).

Definition bestSimilarity (b : BestMatch) : Q :=
  match b with Some (_, s) => s | None => 0%Q end.

Definition bestMatchStep (targetNode : Ref) (b : BestMatch) (candidate : Ref)
  : BestMatch :=
  let similarity := calculateSimilarity (node targetNode) (node candidate) in
  if JS.Qltb (bestSimilarity b) similarity then Some (candidate, similarity)
  else b.

Definition findBestMatch (targetNode : Ref) (candidates : list Ref)
  : BestMatch :=
  fold_left (bestMatchStep targetNode) candidates None.

(** *** The mappings Map: keys are legacy objects, values refactored ones *)

Definition Mappings := list (Ref * Ref).

Fixpoint mapSet (m : Mappings) (k v : Ref) : Mappings :=
  match m with
  | [] => [(k, v)]
  | (k', v') :: m' =>
      if sameObject k' k then (k', v) :: m' else (k', v') :: mapSet m' k v
  end.

Definition mapHas (m : Mappings) (k : Ref) : bool :=
  existsb (fun e => sameObject (fst e) k) m.

Definition mapValues (m : Mappings) : list Ref := map snd m.

(** *** mapElements

    [mapHints] is the list of the hint object's entries, in the order of
    [Object.entries]. *)

Definition hintStep (legacyAST refactoredAST : Node) (m : Mappings)
                    (hint : string * string) : Mappings :=
  match findNodeByName legacyAST (fst hint),
        findNodeByName refactoredAST (snd hint) with
  | Some legacyNode, Some refactoredNode => mapSet m legacyNode refactoredNode
  | _, _ => m
  end.

Definition autoStep (refactoredNodes : list Ref) (m : Mappings)
                    (legacyNode : Ref) : Mappings :=
  if mapHas m legacyNode then m
  else match findBestMatch legacyNode refactoredNodes with
       | Some (bestNode, similarity) =>
           if JS.Qltb 0.7%Q similarity then mapSet m legacyNode bestNode
           else m
       | None => m
       end.

Definition mapElements (legacyAST refactoredAST : Node)
                       (mapHints : list (string * string)) : Mappings :=
  let hinted := fold_left (hintStep legacyAST refactoredAST) mapHints [] in
  let legacyNodes := collectNamedNodes legacyAST in
  let refactoredNodes := collectNamedNodes refactoredAST in
  fold_left (autoStep refactoredNodes) legacyNodes hinted.

End Mapper.

(** ** Diff engine (astAnalyzer.js, computeDiffs and computeASTChanges) *)

Module Differ.
Import AST Mapper.

(** An entry of the [modified] array. *)
Record Change := mkChange {
  legacy : Ref;
  refactored : Ref;
  changes : list string
}.

Record ASTChanges := mkASTChanges {
  added : list Ref;
  removed : list Ref;
  modified : list Change
}.

Definition areNodesEquivalent (node1 node2 : Node) : bool :=
  String.eqb (type node1) (type node2)
  && String.eqb (text node1) (text node2)
  && String.eqb (stringifyMetadata (metadata node1))
                (stringifyMetadata (metadata node2)).

Definition getNodeChanges (node1 node2 : Node) : list string :=
  (if negb (String.eqb (type node1) (type node2))
   then [("Type changed: " ++ type node1 ++ " -> " ++ type node2)%string]
   else [])
  ++ (if negb (String.eqb (text node1) (text node2))
      then ["Content modified"] else [])
  ++ (if negb (String.eqb (stringifyMetadata (metadata node1))
                          (stringifyMetadata (metadata node2)))
      then ["Metadata changed"] else []).

Definition findAddedNodes (legacyAST refactoredAST : Node) (mappings : Mappings)
  : list Ref :=
  let legacyNodes := collectAllNodes legacyAST in
  let refactoredNodes := collectAllNodes refactoredAST in
  filter (fun refactoredNode =>
            let isMapped :=
              existsb (fun v => sameObject v refactoredNode)
                      (mapValues mappings) in
            let hasEquivalent :=
              existsb (fun legacyNode =>
                         areNodesEquivalent (node legacyNode)
                                            (node refactoredNode))
                      legacyNodes in
            negb isMapped && negb hasEquivalent)
         refactoredNodes.

Definition findRemovedNodes (legacyAST refactoredAST : Node)
                            (mappings : Mappings) : list Ref :=
  let legacyNodes := collectAllNodes legacyAST in
  let refactoredNodes := collectAllNodes refactoredAST in
  filter (fun legacyNode =>
            let isMapped := mapHas mappings legacyNode in
            let hasEquivalent :=
              existsb (fun refactoredNode =>
                         areNodesEquivalent (node legacyNode)
                                            (node refactoredNode))
                      refactoredNodes in
            negb isMapped && negb hasEquivalent)
         legacyNodes.

Definition findModifiedNodes (mappings : Mappings) : list Change :=
  flat_map (fun entry =>
              let legacyNode := fst entry in
              let refactoredNode := snd entry in
              if negb (areNodesEquivalent (node legacyNode)
                                          (node refactoredNode))
              then [mkChange legacyNode refactoredNode
                             (getNodeChanges (node legacyNode)
                                             (node refactoredNode))]
              else [])
           mappings.

Definition computeASTChanges (legacyAST refactoredAST : Node)
                             (mappings : Mappings) : ASTChanges :=
  mkASTChanges (findAddedNodes legacyAST refactoredAST mappings)
               (findRemovedNodes legacyAST refactoredAST mappings)
               (findModifiedNodes mappings).

Definition generateASTSummary (c : ASTChanges) : string :=
  JS.join ", "
    ((if 0 <? List.length (added c)
      then [(JS.numberToString (List.length (added c)) ++ " nodes added")%string]
      else [])
     ++ (if 0 <? List.length (removed c)
         then [(JS.numberToString (List.length (removed c)) ++ " nodes removed")%string]
         else [])
     ++ (if 0 <? List.length (modified c)
         then [(JS.numberToString (List.length (modified c)) ++ " nodes modified")%string]
         else [])).

Definition calculateImpactScore (c : ASTChanges) : nat :=
  Nat.min (List.length (added c) * 2
           + List.length (removed c) * 3
           + List.length (modified c) * 1) 100.

(** The [overall] object.  [computeDiffs] creates it with the five counters.
    The classifier and the scorer also read the properties [addedNodes],
    [removedNodes], [modifiedNodes] and [linesModified] from it; an object
    that lacks a property holds [None] there. *)
Record Overall := mkOverall {
  nodesAdded : nat;
  nodesRemoved : nat;
  nodesModified : nat;
  linesAdded : nat;
  linesRemoved : nat;
  addedNodes : option (list Node);
  removedNodes : option (list Node);
  modifiedNodes : option (list Change);
  linesModified : option nat
}.

Record FileChanges := mkFileChanges {
  textDiff : string;
  astDiffSummary : string;
  impactScore : nat;
  fileLinesAdded : nat;
  fileLinesRemoved : nat;
  fileLinesModified : nat
}.

Record FileEntry := mkFileEntry {
  filePath : string;
  fileChanges : FileChanges
}.

Record ASTDiffs := mkASTDiffs {
  files : list FileEntry;
  overall : Overall
}.

(** One element of the array returned by [diff.diffLines]. *)
Record LineChange := mkLineChange {
  lc_added : bool;
  lc_removed : bool;
  lc_count : nat;
  lc_value : string
}.

Definition astToText (ast : Node) : string := text ast.

Section WithDiffPackage.

(** The two functions of the [diff] package that [computeDiffs] calls. *)
Variable diffLines : string -> string -> list LineChange.
Variable createPatch : string -> string -> string -> string.

Definition countLines (textDiffs : list LineChange) : nat * nat :=
  fold_left (fun acc change =>
               if lc_added change then (fst acc + lc_count change, snd acc)
               else if lc_removed change
                    then (fst acc, snd acc + lc_count change)
                    else acc)
            textDiffs (0, 0).

Definition computeDiffs (legacyAST refactoredAST : Node) (mappings : Mappings)
  : ASTDiffs :=
  let textDiffs := diffLines (astToText legacyAST) (astToText refactoredAST) in
  let lines := countLines textDiffs in
  let astChanges := computeASTChanges legacyAST refactoredAST mappings in
  let ov := mkOverall (List.length (added astChanges))
                      (List.length (removed astChanges))
                      (List.length (modified astChanges))
                      (fst lines) (snd lines)
                      None None None None in
  mkASTDiffs
    [mkFileEntry "main"
       (mkFileChanges
          (createPatch "main" (astToText legacyAST) (astToText refactoredAST))
          (generateASTSummary astChanges)
          (calculateImpactScore astChanges)
          (linesAdded ov) (linesRemoved ov) (nodesModified ov))]
    ov.

End WithDiffPackage.

End Differ.

(** ** Pattern classifier (refactorClassifier.js, class RefactorClassifier) *)

Module Classifier.
Import AST Differ.

(** A match rule: each of [type], [text] and [condition] may be absent. *)
Record Rule := mkRule {
  rule_type : option string;
  rule_text : option string;
  rule_condition : option string
}.

Record Pattern := mkPattern {
  pattern_type : string;
  pattern_rules : list Rule;
  pattern_level : nat
}.

Definition typeRule (t c : string) : Rule := mkRule (Some t) None (Some c).
Definition textRule (t c : string) : Rule := mkRule None (Some t) (Some c).
Definition condRule (c : string) : Rule := mkRule None None (Some c).

(** [initializePatterns]: the entries of the pattern table, in the order of
    [Object.entries]. *)
Definition patterns : list (string * Pattern) :=
  [ ("extractMethod",
     mkPattern "Extract Method"
       [ typeRule "function_declaration" "isNew";
         typeRule "method_declaration" "isNew";
         typeRule "function_definition" "isNew" ] 2);
    ("inlineMethod",
     mkPattern "Inline Method"
       [ typeRule "function_declaration" "removed";
         typeRule "method_declaration" "removed";
         typeRule "function_definition" "removed" ] 2);
    ("renameSymbol",
     mkPattern "Rename Symbol" [ condRule "nameChanged" ] 1);
    ("moveModularize",
     mkPattern "Move/Modularize"
       [ typeRule "import_statement" "isNew";
         typeRule "import_declaration" "isNew";
         typeRule "using_directive" "isNew" ] 2);
    ("serviceExtraction",
     mkPattern "Service Extraction"
       [ textRule "restcontroller" "isNew";
         textRule "controller" "isNew";
         textRule "service" "isNew";
         textRule "@restcontroller" "isNew";
         textRule "@controller" "isNew";
         textRule "@service" "isNew";
         textRule "express" "isNew";
         textRule "fastify" "isNew";
         textRule "flask" "isNew";
         textRule "django" "isNew" ] 4);
    ("layering",
     mkPattern "Layering"
       [ textRule "repository" "isNew";
         textRule "dao" "isNew";
         textRule "datalayer" "isNew";
         textRule "repository" "isNew";
         textRule "@repository" "isNew";
         textRule "@dao" "isNew" ] 3);
    ("eventDriven",
     mkPattern "Event-driven"
       [ textRule "kafka" "isNew";
         textRule "rabbitmq" "isNew";
         textRule "sqs" "isNew";
         textRule "eventbus" "isNew";
         textRule "pubsub" "isNew";
         textRule "messaging" "isNew" ] 4);
    ("cloudMigration",
     mkPattern "Cloud Migration"
       [ textRule "aws-sdk" "isNew";
         textRule "s3" "isNew";
         textRule "dynamodb" "isNew";
         textRule "lambda" "isNew";
         textRule "ec2" "isNew";
         textRule "rds" "isNew";
         textRule "sns" "isNew";
         textRule "sqs" "isNew";
         textRule "azure" "isNew";
         textRule "blob" "isNew";
         textRule "cosmosdb" "isNew";
         textRule "functions" "isNew";
         textRule "google-cloud" "isNew";
         textRule "gcs" "isNew";
         textRule "firestore" "isNew";
         textRule "cloud-functions" "isNew" ] 3);
    ("errorHandling",
     mkPattern "Error Handling"
       [ textRule "try" "isNew";
         textRule "catch" "isNew";
         textRule "exception" "isNew";
         textRule "error" "isNew";
         textRule "retry" "isNew";
         textRule "fallback" "isNew" ] 2);
    ("loggingObservability",
     mkPattern "Logging/Observability"
       [ textRule "log4j" "isNew";
         textRule "slf4j" "isNew";
         textRule "winston" "isNew";
         textRule "bunyan" "isNew";
         textRule "logging" "isNew";
         textRule "logger" "isNew";
         textRule "metrics" "isNew";
         textRule "monitoring" "isNew";
         textRule "tracing" "isNew" ] 2);
    ("testing",
     mkPattern "Testing"
       [ textRule "junit" "isNew";
         textRule "testng" "isNew";
         textRule "jest" "isNew";
         textRule "mocha" "isNew";
         textRule "pytest" "isNew";
         textRule "unittest" "isNew";
         textRule "mockito" "isNew";
         textRule "sinon" "isNew";
         textRule "@test" "isNew";
         textRule "describe" "isNew";
         textRule "it(" "isNew";
         textRule "test(" "isNew" ] 2);
    ("containerization",
     mkPattern "Containerization"
       [ textRule "dockerfile" "isNew";
         textRule "docker-compose" "isNew";
         textRule "kubernetes" "isNew";
         textRule "k8s" "isNew";
         textRule "helm" "isNew";
         textRule "container" "isNew" ] 4);
    ("infrastructureAsCode",
     mkPattern "Infrastructure as Code"
       [ textRule "terraform" "isNew";
         textRule "cloudformation" "isNew";
         textRule "arm" "isNew";
         textRule "pulumi" "isNew";
         textRule "cdk" "isNew";
         textRule "serverless" "isNew" ] 4);
    ("databaseMigration",
     mkPattern "Database Migration"
       [ textRule "jpa" "isNew";
         textRule "hibernate" "isNew";
         textRule "mybatis" "isNew";
         textRule "sequelize" "isNew";
         textRule "typeorm" "isNew";
         textRule "sqlalchemy" "isNew";
         textRule "mongoose" "isNew";
         textRule "prisma" "isNew";
         textRule "migration" "isNew";
         textRule "schema" "isNew" ] 3) ].

(** A raw detection, and also a merged tag. *)
Record Detection := mkDetection {
  det_type : string;
  level : nat;
  evidence : list string;
  confidence : Q
}.

(** What [detectPatterns] reads of its first argument, which is a node for
    the added and removed collections and a [modified] entry for the third:
    a property the object lacks is [None]. *)
Record Subject := mkSubject {
  s_type : option string;
  s_text : option string;
  s_metadata : option Metadata;
  s_changes : option (list string)
}.

Definition ofNode (n : Node) : Subject :=
  mkSubject (Some (type n)) (Some (text n)) (Some (metadata n)) None.

Definition ofChange (c : Change) : Subject :=
  mkSubject None None None (Some (changes c)).

Definition optEqb (a b : option string) : bool :=
  match a, b with
  | Some x, Some y => String.eqb x y
  | None, None => true
  | _, _ => false
  end.

Definition hasNameChange (subject : Subject) : bool :=
  match s_changes subject with
  | Some chs =>
      existsb (fun change =>
                 JS.includes (JS.toLowerCase change) "name"
                 || JS.includes (JS.toLowerCase change) "identifier") chs
  | None => false
  end.

(** [node.text?.toLowerCase()] *)
Definition lowerText (subject : Subject) : option string :=
  option_map JS.toLowerCase (s_text subject).

Definition matchesPattern (subject : Subject) (rule : Rule)
                          (condition : string) : bool :=
  if JS.truthy (rule_type rule)
     && negb (optEqb (rule_type rule) (s_type subject)) then false
  else if JS.truthy (rule_text rule)
          && negb (JS.includes (JS.orEmpty (lowerText subject))
                               (JS.toLowerCase (JS.orEmpty (rule_text rule))))
       then false
  else if JS.truthy (rule_condition rule) then
    let c := JS.orEmpty (rule_condition rule) in
    if String.eqb c "isNew" then String.eqb condition "added"
    else if String.eqb c "removed" then String.eqb condition "removed"
    else if String.eqb c "nameChanged"
         then String.eqb condition "modified" && hasNameChange subject
    else true
  else true.

Definition metadataName (subject : Subject) : option string :=
  match s_metadata subject with
  | Some md => name md
  | None => None
  end.

Definition generateEvidence (subject : Subject) (rule : Rule) : string :=
  JS.join " "
    ((if JS.truthy (rule_text rule)
      then [("Found " ++ JS.orEmpty (rule_text rule) ++ " usage")%string]
      else [])
     ++ (if JS.truthy (metadataName subject)
         then [("in " ++ JS.orEmpty (metadataName subject))%string] else [])
     ++ (if JS.truthy (s_type subject)
         then [("(" ++ JS.orEmpty (s_type subject) ++ ")")%string] else [])).

Definition calculateConfidence (subject : Subject) (rule : Rule) : Q :=
  let c0 := 0.5%Q in
  let c1 :=
    if JS.truthy (rule_text rule)
       && match lowerText subject with
          | Some t => JS.includes t (JS.toLowerCase (JS.orEmpty (rule_text rule)))
          | None => false
          end
    then (c0 + 0.3)%Q else c0 in
  let c2 :=
    if JS.truthy (rule_type rule) && optEqb (rule_type rule) (s_type subject)
    then (c1 + 0.2)%Q else c1 in
  let c3 :=
    match s_metadata subject with
    | Some md =>
        let c := if JS.truthy (name md) then (c2 + 0.1)%Q else c2 in
        if 0 <? List.length (imports md) then (c + 0.1)%Q else c
    | None => c2
    end in
  Qmin c3 1.0%Q.

Definition detectPatterns (subject : Subject) (condition : string)
  : list Detection :=
  flat_map (fun entry =>
              let pattern := snd entry in
              flat_map (fun rule =>
                          if matchesPattern subject rule condition
                          then [mkDetection (pattern_type pattern)
                                            (pattern_level pattern)
                                            [generateEvidence subject rule]
                                            (calculateConfidence subject rule)]
                          else [])
                       (pattern_rules pattern))
           patterns.

Definition analyzeFileChanges (file : FileEntry) : list Detection :=
  (if negb (String.eqb (textDiff (fileChanges file)) EmptyString) then
     let diffContent := JS.toLowerCase (textDiff (fileChanges file)) in
     flat_map (fun entry =>
                 let pattern := snd entry in
                 flat_map (fun rule =>
                             if JS.truthy (rule_text rule)
                                && JS.includes diffContent
                                     (JS.toLowerCase (JS.orEmpty (rule_text rule)))
                             then [mkDetection (pattern_type pattern)
                                     (pattern_level pattern)
                                     [("Found " ++ JS.orEmpty (rule_text rule)
                                       ++ " in file changes")%string]
                                     0.8%Q]
                             else [])
                          (pattern_rules pattern))
              patterns
   else [])
  ++ (if negb (String.eqb (astDiffSummary (fileChanges file)) EmptyString) then
        let summary := JS.toLowerCase (astDiffSummary (fileChanges file)) in
        if JS.includes summary "import" || JS.includes summary "dependency"
        then [mkDetection "Move/Modularize" 2
                          ["Import/dependency changes detected"] 0.7%Q]
        else []
      else []).

(** *** mergeRefactorTypes

    [merged] is a Map from type to tag, in insertion order. *)

Definition mergeInto (existing refactor : Detection) : Detection :=
  mkDetection (det_type existing)
              (Nat.max (level existing) (level refactor))
              (JS.uniq [] (evidence existing ++ evidence refactor))
              ((confidence existing + confidence refactor) / 2)%Q.

Fixpoint mergeStep (merged : list Detection) (refactor : Detection)
  : list Detection :=
  match merged with
  | [] => [refactor]
  | existing :: merged' =>
      if String.eqb (det_type existing) (det_type refactor)
      then mergeInto existing refactor :: merged'
      else existing :: mergeStep merged' refactor
  end.

(** [Array.prototype.sort] with a comparison function: a stable sort that
    puts [a] after [b] when [compareFn a b] is positive. *)
Fixpoint sortInsert {A} (compareFn : A -> A -> Z) (x : A) (l : list A)
  : list A :=
  match l with
  | [] => [x]
  | y :: l' =>
      if (0 <? compareFn x y)%Z then y :: sortInsert compareFn x l'
      else x :: l
  end.

Definition sort {A} (compareFn : A -> A -> Z) (l : list A) : list A :=
  fold_right (sortInsert compareFn) [] l.

Definition byLevelDescending (a b : Detection) : Z :=
  (Z.of_nat (level b) - Z.of_nat (level a))%Z.

Definition mergeRefactorTypes (refactorTypes : list Detection)
  : list Detection :=
  sort byLevelDescending (fold_left mergeStep refactorTypes []).

(** *** classify *)

Definition forEachOpt {A} (l : option (list A)) (f : A -> list Detection)
  : list Detection :=
  match l with
  | Some xs => flat_map f xs
  | None => []
  end.

Definition rawDetections (astDiffs : ASTDiffs) : list Detection :=
  forEachOpt (addedNodes (overall astDiffs))
             (fun n => detectPatterns (ofNode n) "added")
  ++ forEachOpt (removedNodes (overall astDiffs))
                (fun n => detectPatterns (ofNode n) "removed")
  ++ forEachOpt (modifiedNodes (overall astDiffs))
                (fun change => detectPatterns (ofChange change) "modified")
  ++ flat_map analyzeFileChanges (files astDiffs).

Definition classify (astDiffs : ASTDiffs) (lang : string) : list Detection :=
  mergeRefactorTypes (rawDetections astDiffs).

End Classifier.

(** ** Impact scorer (class ImpactScorer) *)

Module Scorer.
Import AST Differ Classifier.

(** The [weights] object of the constructor. *)
Definition w_linesChanged : R := 0.30%R.
Definition w_astNodesChanged : R := 0.25%R.
Definition w_newInfrastructure : R := 0.20%R.
Definition w_testCoverage : R := 0.15%R.
Definition w_complexityDelta : R := 0.10%R.

(** The [levelThresholds] object: keys 0 to 4 (no other key is read). *)
Definition levelThresholds (k : nat) : R :=
  match k with
  | 0 => 0%R
  | 1 => 20%R
  | 2 => 40%R
  | 3 => 60%R
  | _ => 80%R
  end.

(** The metrics that [calculateOverallScore] and the result read.  The
    [newDependencies] and [removedDependencies] arrays, filled by
    regular-expression extraction from the evidence strings, do not enter the
    score and are left out. *)
Record Metrics := mkMetrics {
  totalLinesChanged : nat;
  filesModified : nat;
  cyclomaticComplexityDelta : Z;
  testCoverageDelta : Z;
  astNodesChanged : nat;
  newInfrastructureComponents : nat;
  architecturalChanges : nat
}.

Definition infrastructureTypes : list string :=
  [ "Service Extraction"; "Cloud Migration"; "Containerization";
    "Infrastructure as Code"; "Event-driven" ].

Definition complexTypes : list string :=
  [ "Service Extraction"; "Cloud Migration"; "Event-driven";
    "Infrastructure as Code" ].

Definition simplifyingTypes : list string :=
  [ "Extract Method"; "Inline Method"; "Rename Symbol" ].

Definition calculateComplexityDelta (refactorTypes : list Detection) : Z :=
  let d1 :=
    fold_left (fun delta refactor =>
                 if JS.arrayIncludes complexTypes (det_type refactor)
                 then (delta + Z.of_nat (level refactor) * 2)%Z
                 else (delta + Z.of_nat (level refactor))%Z)
              refactorTypes 0%Z in
  let d2 :=
    fold_left (fun delta refactor =>
                 if JS.arrayIncludes simplifyingTypes (det_type refactor)
                 then (delta - Z.of_nat (level refactor))%Z
                 else delta)
              refactorTypes d1 in
  Z.max d2 (-10).

Definition calculateTestCoverageDelta (refactorTypes : list Detection) : Z :=
  let d :=
    fold_left (fun delta refactor =>
                 if String.eqb (det_type refactor) "Testing"
                 then (delta + Z.of_nat (level refactor) * 10)%Z
                 else if 3 <=? level refactor then (delta - 5)%Z
                 else delta)
              refactorTypes 0%Z in
  Z.max (Z.min d 50) (-50).

Definition optNat (n : option nat) : nat :=
  match n with Some k => k | None => 0 end.

Definition calculateMetrics (astDiffs : ASTDiffs)
                            (refactorTypes : list Detection) (lang : string)
  : Metrics :=
  let ov := overall astDiffs in
  mkMetrics
    (linesAdded ov + linesRemoved ov + optNat (linesModified ov))
    (List.length (files astDiffs))
    (calculateComplexityDelta refactorTypes)
    (calculateTestCoverageDelta refactorTypes)
    (nodesAdded ov + nodesRemoved ov + nodesModified ov)
    (List.length (filter (fun refactor =>
                            JS.arrayIncludes infrastructureTypes
                                             (det_type refactor))
                         refactorTypes))
    (List.length (filter (fun refactor => 4 <=? level refactor)
                         refactorTypes)).

(** The logistic curve [100 / (1 + e^(-(x - centre) / slope))]. *)
Definition logistic (centre slope x : R) : R :=
  (100 / (1 + exp (- (x - centre) / slope)))%R.

Definition normalizeLinesChanged (lines : R) : R :=
  if Req_dec_T lines 0 then 0%R
  else Rmin (logistic 200 100 lines) 100.

Definition normalizeASTNodes (nodes : R) : R :=
  if Req_dec_T nodes 0 then 0%R
  else Rmin (logistic 50 25 nodes) 100.

Definition normalizeInfrastructure (components : R) : R :=
  Rmin (components * 20) 100.

Definition normalizeTestCoverage (delta : R) : R :=
  Rmin (Rmax ((delta + 50) * 2) 0) 100.

Definition normalizeComplexity (delta : R) : R :=
  Rmin (Rmax ((10 - delta) * 5) 0) 100.

(** [Math.round]: the nearest integer, halves rounded up. *)
Definition Math_round (x : R) : Z := (up (x + / 2) - 1)%Z.

Definition weightedScore (metrics : Metrics) : R :=
  (normalizeLinesChanged (INR (totalLinesChanged metrics)) * w_linesChanged
   + normalizeASTNodes (INR (astNodesChanged metrics)) * w_astNodesChanged
   + normalizeInfrastructure (INR (newInfrastructureComponents metrics))
     * w_newInfrastructure
   + normalizeTestCoverage (IZR (testCoverageDelta metrics)) * w_testCoverage
   + normalizeComplexity (IZR (cyclomaticComplexityDelta metrics))
     * w_complexityDelta)%R.

Definition calculateOverallScore (metrics : Metrics) : Z :=
  Math_round (Rmin (Rmax (weightedScore metrics) 0) 100).

Definition determineLevel (score : R) : nat :=
  if Rle_dec (levelThresholds 4) score then 4
  else if Rle_dec (levelThresholds 3) score then 3
  else if Rle_dec (levelThresholds 2) score then 2
  else if Rle_dec (levelThresholds 1) score then 1
  else 0.

Record Impact := mkImpact {
  overallScore : Z;
  impactLevel : nat;
  detailed : Metrics
}.

Definition calculate (astDiffs : ASTDiffs) (refactorTypes : list Detection)
                     (lang : string) : Impact :=
  let metrics := calculateMetrics astDiffs refactorTypes lang in
  let score := calculateOverallScore metrics in
  mkImpact score (determineLevel (IZR score)) metrics.

End Scorer.

(** ** Risk scanner (refactorClassifier.js, class SecurityScanner) *)

Module Scanner.
Import JS.

(** A regular-expression literal: its source and its flags. *)
Record RegExp := mkRegExp { source : string; flags : string }.

Record RiskFlag := mkRiskFlag {
  flag_type : string;
  severity : string;
  description : string;
  suggestion : string
}.

(** A category of the security and compatibility tables. *)
Record Category := mkCategory {
  cat_patterns : list RegExp;
  cat_severity : string;
  cat_type : string
}.

(** A category of the license table, which also has a description. *)
Record License := mkLicense {
  lic_patterns : list RegExp;
  lic_type : string;
  lic_severity : string;
  lic_description : string
}.

(** The tail shared by the six assignment patterns of the
    [secrets] category: whitespace, an equals sign, and a quoted literal. *)
Definition quotedAssignment : string :=
  "\s*=\s*[" ++ dq ++ "'][^" ++ dq ++ "']+[" ++ dq ++ "']".

(** The character class of a single or a double quote. *)
Definition anyQuote : string := "['" ++ dq ++ "]".
Definition quoteAny : string := "[" ++ dq ++ "']".

Definition initializeSecurityPatterns : list (string * Category) :=
  [ ("secrets",
     mkCategory
       [ mkRegExp ("password" ++ quotedAssignment) "gi";
         mkRegExp ("api[_-]?key" ++ quotedAssignment) "gi";
         mkRegExp ("secret" ++ quotedAssignment) "gi";
         mkRegExp ("token" ++ quotedAssignment) "gi";
         mkRegExp ("access[_-]?key" ++ quotedAssignment) "gi";
         mkRegExp ("private[_-]?key" ++ quotedAssignment) "gi";
         mkRegExp "aws[_-]?access[_-]?key" "gi";
         mkRegExp "aws[_-]?secret[_-]?key" "gi";
         mkRegExp "github[_-]?token" "gi";
         mkRegExp "database[_-]?password" "gi" ]
       "high" "security");
    ("deprecatedCrypto",
     mkCategory
       [ mkRegExp "md5\s*\(" "gi";
         mkRegExp "sha1\s*\(" "gi";
         mkRegExp "des\s*\(" "gi";
         mkRegExp "rc4\s*\(" "gi";
         mkRegExp ("crypto\.createHash\s*\(\s*" ++ anyQuote ++ "md5" ++ anyQuote)
                  "gi";
         mkRegExp ("crypto\.createHash\s*\(\s*" ++ anyQuote ++ "sha1" ++ anyQuote)
                  "gi";
         mkRegExp ("MessageDigest\.getInstance\s*\(\s*" ++ anyQuote ++ "MD5"
                   ++ anyQuote) "gi";
         mkRegExp ("MessageDigest\.getInstance\s*\(\s*" ++ anyQuote ++ "SHA1"
                   ++ anyQuote) "gi" ]
       "medium" "security");
    ("sqlInjection",
     mkCategory
       [ mkRegExp ("executeQuery\s*\(\s*" ++ quoteAny ++ "[^" ++ dq ++ "']*\+")
                  "gi";
         mkRegExp ("query\s*\(\s*" ++ quoteAny ++ "[^" ++ dq ++ "']*\+") "gi";
         mkRegExp ("Statement\.execute\s*\(\s*" ++ quoteAny ++ "[^" ++ dq
                   ++ "']*\+") "gi";
         mkRegExp ("cursor\.execute\s*\(\s*" ++ quoteAny ++ "[^" ++ dq
                   ++ "']*\+") "gi" ]
       "high" "security");
    ("xss",
     mkCategory
       [ mkRegExp "innerHTML\s*=\s*[^;]+$" "gm";
         mkRegExp "document\.write\s*\(" "gi";
         mkRegExp "eval\s*\(" "gi";
         mkRegExp "Function\s*\(" "gi";
         mkRegExp "setTimeout\s*\([^,]+,\s*0\)" "gi" ]
       "medium" "security");
    ("pathTraversal",
     mkCategory
       [ mkRegExp "\.\.\/\.\.\/" "g";
         mkRegExp ("\.\.\\\.\." ++ bs ++ bs) "g";
         mkRegExp "\.\.%2f\.\.%2f" "gi";
         mkRegExp "\.\.%5c\.\.%5c" "gi";
         mkRegExp "readFile\s*\(\s*[^)]*\.\." "gi";
         mkRegExp "open\s*\(\s*[^)]*\.\." "gi" ]
       "high" "security") ].

Definition initializeLicensePatterns : list (string * License) :=
  [ ("gpl",
     mkLicense
       [ mkRegExp "gpl[_-]?v?[0-9]?" "gi";
         mkRegExp "gnu[_-]?general[_-]?public[_-]?license" "gi" ]
       "license" "high" "GPL license may require source code disclosure");
    ("agpl",
     mkLicense
       [ mkRegExp "agpl[_-]?v?[0-9]?" "gi";
         mkRegExp "gnu[_-]?affero[_-]?general[_-]?public[_-]?license" "gi" ]
       "license" "critical"
       "AGPL license requires source code disclosure for network services");
    ("copyleft",
     mkLicense
       [ mkRegExp "copyleft" "gi"; mkRegExp "copyleft[_-]?left" "gi" ]
       "license" "high" "Copyleft license may impose restrictions");
    ("proprietary",
     mkLicense
       [ mkRegExp "proprietary" "gi";
         mkRegExp "commercial[_-]?license" "gi";
         mkRegExp "closed[_-]?source" "gi" ]
       "license" "medium"
       "Proprietary license may require commercial agreement") ].

Definition initializeCompatibilityPatterns : list (string * Category) :=
  [ ("deprecatedAPIs",
     mkCategory
       [ mkRegExp "new\s+Date\s*\([^)]*\)" "g";
         mkRegExp "\.call\s*\(\s*null\s*," "g";
         mkRegExp "arguments\.callee" "g";
         mkRegExp "with\s*\(" "g";
         mkRegExp "eval\s*\(" "g" ]
       "medium" "compatibility");
    ("browserCompatibility",
     mkCategory
       [ mkRegExp "document\.all" "g";
         mkRegExp "window\.event" "g";
         mkRegExp "attachEvent" "g";
         mkRegExp "detachEvent" "g";
         mkRegExp "createStyleSheet" "g" ]
       "low" "compatibility");
    ("nodeVersion",
     mkCategory
       [ mkRegExp "process\.version" "g";
         mkRegExp "node[_-]?version" "g";
         mkRegExp "v8[_-]?version" "g" ]
       "low" "compatibility") ].

Definition occurrences (matchCount : nat) : string :=
  " (" ++ numberToString matchCount ++ " occurrences)".

Definition generateSecurityDescription (category : string) (matchCount : nat)
  : string :=
  if String.eqb category "secrets"
  then "Potential secret exposure detected" ++ occurrences matchCount
  else if String.eqb category "deprecatedCrypto"
  then "Deprecated cryptographic functions found" ++ occurrences matchCount
  else if String.eqb category "sqlInjection"
  then "Potential SQL injection vulnerability" ++ occurrences matchCount
  else if String.eqb category "xss"
  then "Potential XSS vulnerability" ++ occurrences matchCount
  else if String.eqb category "pathTraversal"
  then "Potential path traversal vulnerability" ++ occurrences matchCount
  else "Security issue detected" ++ occurrences matchCount.

Definition generateSecuritySuggestion (category : string) : string :=
  if String.eqb category "secrets"
  then "Use environment variables or secure configuration management for secrets"
  else if String.eqb category "deprecatedCrypto"
  then "Replace with modern cryptographic functions (SHA-256, AES-256)"
  else if String.eqb category "sqlInjection"
  then "Use parameterized queries or prepared statements"
  else if String.eqb category "xss"
  then "Sanitize user input and use Content Security Policy"
  else if String.eqb category "pathTraversal"
  then "Validate and sanitize file paths, use path.join() or equivalent"
  else "Review security best practices for this code".

Definition generateCompatibilityDescription (category : string)
                                            (matchCount : nat) : string :=
  if String.eqb category "deprecatedAPIs"
  then "Deprecated API usage found" ++ occurrences matchCount
  else if String.eqb category "browserCompatibility"
  then "Browser compatibility issues" ++ occurrences matchCount
  else if String.eqb category "nodeVersion"
  then "Node.js version dependencies" ++ occurrences matchCount
  else "Compatibility issue detected" ++ occurrences matchCount.

Definition generateCompatibilitySuggestion (category : string) : string :=
  if String.eqb category "deprecatedAPIs"
  then "Update to modern APIs and remove deprecated usage"
  else if String.eqb category "browserCompatibility"
  then "Test across target browsers and update polyfills"
  else if String.eqb category "nodeVersion"
  then "Specify minimum Node.js version in package.json"
  else "Review compatibility requirements".

(** [deduplicateFlags]: [seen] is the Set of keys met so far. *)
Definition flagKey (flag : RiskFlag) : string :=
  flag_type flag ++ "-" ++ severity flag ++ "-" ++ description flag.

Fixpoint dedupFrom (seen : list string) (flags : list RiskFlag)
  : list RiskFlag :=
  match flags with
  | [] => []
  | flag :: flags' =>
      let key := flagKey flag in
      if arrayIncludes seen key then dedupFrom seen flags'
      else flag :: dedupFrom (key :: seen) flags'
  end.

Definition deduplicateFlags (flags : list RiskFlag) : list RiskFlag :=
  dedupFrom [] flags.

Section WithRegExpEngine.

(** [sourceText.match(pattern)] for a pattern with the [g] flag: null, or the
    non-empty array of all matches. *)
Variable stringMatch : string -> RegExp -> option (list string).

Definition scanSecurity (sourceText : string) : list RiskFlag :=
  flat_map (fun entry =>
              let category := fst entry in
              let config := snd entry in
              flat_map (fun pattern =>
                          match stringMatch sourceText pattern with
                          | Some matches =>
                              [mkRiskFlag "security" (cat_severity config)
                                 (generateSecurityDescription category
                                    (List.length matches))
                                 (generateSecuritySuggestion category)]
                          | None => []
                          end)
                       (cat_patterns config))
           initializeSecurityPatterns.

Definition scanLicenses (sourceText : string) : list RiskFlag :=
  flat_map (fun entry =>
              let config := snd entry in
              flat_map (fun pattern =>
                          match stringMatch sourceText pattern with
                          | Some matches =>
                              [mkRiskFlag "license" (lic_severity config)
                                 (lic_description config)
                                 "Review license compatibility with your project requirements"]
                          | None => []
                          end)
                       (lic_patterns config))
           initializeLicensePatterns.

Definition scanCompatibility (sourceText : string) : list RiskFlag :=
  flat_map (fun entry =>
              let category := fst entry in
              let config := snd entry in
              flat_map (fun pattern =>
                          match stringMatch sourceText pattern with
                          | Some matches =>
                              [mkRiskFlag "compatibility" (cat_severity config)
                                 (generateCompatibilityDescription category
                                    (List.length matches))
                                 (generateCompatibilitySuggestion category)]
                          | None => []
                          end)
                       (cat_patterns config))
           initializeCompatibilityPatterns.

Definition scan (sourceText : string) (lang : string)
                (includeSecurityScan : bool) : list RiskFlag :=
  deduplicateFlags
    (if includeSecurityScan
     then scanSecurity sourceText ++ scanLicenses sourceText
          ++ scanCompatibility sourceText
     else []).

End WithRegExpEngine.

End Scanner.

(** ** Analysis service: the chain of the stages (analyzeCodePair)

    The record updates, the clustering side process, the summary and
    suggestion strings, the KPI comparison and the notification mail of
    [analyzeCodePair] are left out: none of them feeds the stages below. *)

Module Service.
Import AST Mapper Differ Classifier Scorer Scanner.

Record Request := mkRequest {
  req_legacy : string;
  req_refactored : string;
  req_language : string;
  req_mapHints : list (string * string);
  req_includeSecurityScan : bool
}.

Record Results := mkResults {
  res_overallScore : Z;
  res_level : nat;
  res_refactorTypes : list Detection;
  res_files : list FileEntry;
  res_riskFlags : list RiskFlag;
  res_metrics : Metrics
}.

Section WithCollaborators.

(** The tree-sitter parser of a language applied to a source text: the root
    of the syntax tree, or a failure (no parser for the language, or an
    exception while parsing). *)
Variable parse : string -> string -> option SyntaxNode.
Variable diffLines : string -> string -> list LineChange.
Variable createPatch : string -> string -> string -> string.
Variable stringMatch : string -> RegExp -> option (list string).

Definition parseCode (src lang : string) : option Node :=
  match parse lang src with
  | Some rootNode => Some (normalizeAST rootNode lang)
  | None => None
  end.

(** Steps 2 to 5 of [analyzeCodePair], on the two parsed trees. *)
Definition analyzeTrees (legacyAST refactoredAST : Node)
                        (mapHints : list (string * string)) (lang : string)
  : list Detection * Impact * ASTDiffs :=
  let mappings := mapElements legacyAST refactoredAST mapHints in
  let astDiffs :=
    computeDiffs diffLines createPatch legacyAST refactoredAST mappings in
  let refactorTypes := classify astDiffs lang in
  let impactMetrics := calculate astDiffs refactorTypes lang in
  (refactorTypes, impactMetrics, astDiffs).

Definition analyzeCodePair (request : Request) : option Results :=
  match parseCode (req_legacy request) (req_language request),
        parseCode (req_refactored request) (req_language request) with
  | Some legacyAST, Some refactoredAST =>
      let '(refactorTypes, impactMetrics, astDiffs) :=
        analyzeTrees legacyAST refactoredAST (req_mapHints request)
                     (req_language request) in
      let riskFlags :=
        scan stringMatch (req_refactored request) (req_language request)
             (req_includeSecurityScan request) in
      Some (mkResults (overallScore impactMetrics)
                      (impactLevel impactMetrics)
                      refactorTypes
                      (files astDiffs)
                      riskFlags
                      (detailed impactMetrics))
  | _, _ => None
  end.

End WithCollaborators.

End Service.

(** ** Reference notions the statements below compare the code with *)

Module Reference.
Import AST Mapper Classifier.

(** Edit scripts between two character sequences, with their cost: a kept
    character is free; a substitution, a deletion and an insertion cost one
    each.  The Levenshtein distance is the least cost of a script. *)
Inductive edit : list ascii -> list ascii -> nat -> Prop :=
| edit_nil : edit [] [] 0
| edit_keep : forall a s t n, edit s t n -> edit (a :: s) (a :: t) n
| edit_subst : forall a b s t n, edit s t n -> edit (a :: s) (b :: t) (S n)
| edit_delete : forall a s t n, edit s t n -> edit (a :: s) t (S n)
| edit_insert : forall b s t n, edit s t n -> edit s (b :: t) (S n).

Definition isLevenshtein (s t : string) (d : nat) : Prop :=
  edit (list_ascii_of_string s) (list_ascii_of_string t) d
  /\ forall n, edit (list_ascii_of_string s) (list_ascii_of_string t) n
               -> d <= n.

(** The recurrence that the matrix of [levenshteinDistance] implements, as a
    recursive function on the two sequences read from their ends: [lev s t]
    for the reversed prefixes [s] and [t]. *)
Fixpoint lev (s t : list ascii) : nat :=
  match s with
  | [] => List.length t
  | a :: s' =>
      (fix lev_s (t : list ascii) : nat :=
         match t with
         | [] => S (List.length s')
         | b :: t' =>
             if Ascii.eqb b a then lev s' t'
             else min3 (lev s' t' + 1) (lev s' (b :: t') + 1) (lev_s t' + 1)
         end) t
  end.

(** The cell of the matrix for the prefix [p] of the first string and the
    prefix [q] of the second, and the part of a row from the cell of [p] on,
    [rest] being what follows [p] in the first string. *)
Definition prefixDistance (p q : list ascii) : nat := lev (rev p) (rev q).

Fixpoint rowCells (p rest q : list ascii) : list nat :=
  prefixDistance p q
  :: match rest with
     | [] => []
     | c :: rest' => rowCells (p ++ [c]) rest' q
     end.

(** The similarity as the weighted sum of the three component similarities,
    for two nodes whose names are at Levenshtein distance [d]: the name
    similarity is 1 for identical names and otherwise 1 minus [d] over the
    longer name's length; the type similarity is 1 or one half; the parameter
    similarity is the share of common parameters in the longer list, 1 for
    two empty lists and 0 when exactly one is empty. *)
Definition namePart (name1 name2 : string) (d : nat) : Q :=
  if String.eqb name1 name2 then 1%Q
  else (1 - ofNat d
            / ofNat (Nat.max (String.length name1) (String.length name2)))%Q.

Definition typePart (node1 node2 : Node) : Q :=
  if String.eqb (type node1) (type node2) then 1%Q else (1 # 2)%Q.

Definition parameterPart (params1 params2 : list string) : Q :=
  match params1, params2 with
  | [], [] => 1%Q
  | [], _ :: _ => 0%Q
  | _ :: _, [] => 0%Q
  | _, _ =>
      (ofNat (List.length (intersection params1 params2))
       / ofNat (Nat.max (List.length params1) (List.length params2)))%Q
  end.

Definition weightedSum (node1 node2 : Node) (d : nat) : Q :=
  ((5 # 10) * namePart (JS.orEmpty (name (metadata node1)))
                       (JS.orEmpty (name (metadata node2))) d
   + (3 # 10) * typePart node1 node2
   + (2 # 10) * parameterPart (parameters (metadata node1))
                              (parameters (metadata node2)))%Q.

(** A mapping is injective when no two entries with distinct legacy objects
    share their refactored object. *)
Definition injective (m : Mappings) : Prop :=
  forall e1 e2, In e1 m -> In e2 m ->
    sameObject (snd e1) (snd e2) = true ->
    sameObject (fst e1) (fst e2) = true.

(** The same, as a check that runs on a concrete mapping. *)
Definition injectiveb (m : Mappings) : bool :=
  forallb (fun e1 =>
             forallb (fun e2 =>
                        implb (sameObject (snd e1) (snd e2))
                              (sameObject (fst e1) (fst e2))) m) m.

(** Where an entry of the mapping comes from: an explicit hint whose two
    names were found in the two trees, or the automatic matching of a named
    legacy node with its best candidate, of similarity above 0.7. *)
Definition fromHint (legacyAST refactoredAST : Node)
                    (mapHints : list (string * string)) (e : Ref * Ref)
  : Prop :=
  exists hint legacyNode,
    In hint mapHints
    /\ findNodeByName legacyAST (fst hint) = Some legacyNode
    /\ sameObject legacyNode (fst e) = true
    /\ findNodeByName refactoredAST (snd hint) = Some (snd e).

Definition fromBestMatch (legacyAST refactoredAST : Node) (e : Ref * Ref)
  : Prop :=
  In (fst e) (collectNamedNodes legacyAST)
  /\ In (snd e) (collectNamedNodes refactoredAST)
  /\ (0.7 < calculateSimilarity (node (fst e)) (node (snd e)))%Q
  /\ forall candidate,
       In candidate (collectNamedNodes refactoredAST) ->
       (calculateSimilarity (node (fst e)) (node candidate)
        <= calculateSimilarity (node (fst e)) (node (snd e)))%Q.

(** The legacy objects that are keys of a mapping, and the invariant of the
    two loops of [mapElements]. *)
Definition keys (m : Mappings) : list Path := map (fun e => path (fst e)) m.

Definition wellFormed (legacyAST refactoredAST : Node)
                      (mapHints : list (string * string)) (m : Mappings)
  : Prop :=
  NoDup (keys m)
  /\ forall e, In e m ->
       fromHint legacyAST refactoredAST mapHints e
       \/ fromBestMatch legacyAST refactoredAST e.

(** The confidence of a merged tag: the first detection's confidence, then
    for each further detection the mean of the confidence so far and the
    detection's own. *)
Definition runningAverage (first : Q) (rest : list Q) : Q :=
  fold_left (fun acc c => ((acc + c) / 2)%Q) rest first.

Definition maximum (first : nat) (rest : list nat) : nat :=
  fold_left Nat.max rest first.

(** The detections of one type, in order. *)
Definition ofType (ty : string) (ds : list Detection) : list Detection :=
  filter (fun d => String.eqb (det_type d) ty) ds.

(** The tag that the Map of the merging loop holds for a type, and how one
    more detection changes it. *)
Definition lookup (ty : string) (merged : list Detection) : option Detection :=
  find (fun d => String.eqb (det_type d) ty) merged.

Definition absorb (ty : string) (o : option Detection) (d : Detection)
  : option Detection :=
  if String.eqb (det_type d) ty
  then Some (match o with Some e => mergeInto e d | None => d end)
  else o.

(** The order of a list sorted by level, highest first. *)
Definition levelGe (a b : Detection) : Prop := level b <= level a.

(** The types of the pattern table whose rules all test a node (its kind or
    its recorded changes) and none a text. *)
Definition nodeOnlyTypes : list string :=
  [ "Extract Method"; "Inline Method"; "Rename Symbol" ].

Definition textRulesAvoid (tys : list string) : bool :=
  forallb (fun entry =>
             forallb (fun rule =>
                        negb (JS.truthy (rule_text rule))
                        || negb (JS.arrayIncludes tys
                                   (pattern_type (snd entry))))
                     (pattern_rules (snd entry)))
          patterns.

(** The three fields of a risk flag that identify it, and the key string the
    scanner builds from them. *)
Definition triple (flag : Scanner.RiskFlag) : string * string * string :=
  (Scanner.flag_type flag, Scanner.severity flag, Scanner.description flag).

Definition keyOfTriple (t : string * string * string) : string :=
  (fst (fst t) ++ "-" ++ snd (fst t) ++ "-" ++ snd t)%string.

End Reference.

(** ** Concrete programs used by the examples *)

Module Examples.
Import AST Mapper Differ Scanner.

Definition token (t : string) : SyntaxNode := mkSyntaxNode t t None [].

Definition leaf (ty tx : string) (field : option string) : SyntaxNode :=
  mkSyntaxNode ty tx field [].

Definition program (tx : string) (cs : list SyntaxNode) : SyntaxNode :=
  mkSyntaxNode "program" tx None cs.

(** The syntax tree of [function add(a,b){return a+b;}]. *)
Definition addSource : string := "function add(a,b){return a+b;}".

Definition addTree : SyntaxNode :=
  program addSource
    [ mkSyntaxNode "function_declaration" addSource None
        [ token "function";
          leaf "identifier" "add" (Some "name");
          mkSyntaxNode "formal_parameters" "(a,b)" (Some "parameters")
            [ token "("; leaf "identifier" "a" None; token ",";
              leaf "identifier" "b" None; token ")" ];
          mkSyntaxNode "statement_block" "{return a+b;}" (Some "body")
            [ token "{";
              mkSyntaxNode "return_statement" "return a+b;" None
                [ token "return";
                  mkSyntaxNode "binary_expression" "a+b" None
                    [ leaf "identifier" "a" (Some "left");
                      leaf "+" "+" (Some "operator");
                      leaf "identifier" "b" (Some "right") ];
                  token ";" ];
              token "}" ] ] ].

(** The syntax tree of [function NAME(items){return items.length;}]. *)
Definition totalSource (nm : string) : string :=
  "function " ++ nm ++ "(items){return items.length;}".

Definition totalTree (nm : string) : SyntaxNode :=
  program (totalSource nm)
    [ mkSyntaxNode "function_declaration" (totalSource nm) None
        [ token "function";
          leaf "identifier" nm (Some "name");
          mkSyntaxNode "formal_parameters" "(items)" (Some "parameters")
            [ token "("; leaf "identifier" "items" None; token ")" ];
          mkSyntaxNode "statement_block" "{return items.length;}" (Some "body")
            [ token "{";
              mkSyntaxNode "return_statement" "return items.length;" None
                [ token "return";
                  mkSyntaxNode "member_expression" "items.length" None
                    [ leaf "identifier" "items" (Some "object");
                      token ".";
                      leaf "property_identifier" "length" (Some "property") ];
                  token ";" ];
              token "}" ] ] ].

Definition computeTotalAST : Node :=
  normalizeAST (totalTree "computeTotal") "javascript".

Definition calculateTotalAST : Node :=
  normalizeAST (totalTree "calculateTotal") "javascript".

(** The syntax tree of a function with no parameter and an empty body. *)
Definition emptyFunctionSource (nm : string) : string :=
  "function " ++ nm ++ "(){}".

Definition emptyFunction (nm : string) : SyntaxNode :=
  mkSyntaxNode "function_declaration" (emptyFunctionSource nm) None
    [ token "function";
      leaf "identifier" nm (Some "name");
      mkSyntaxNode "formal_parameters" "()" (Some "parameters")
        [ token "("; token ")" ];
      mkSyntaxNode "statement_block" "{}" (Some "body")
        [ token "{"; token "}" ] ].

(** A program made of empty functions, one per line. *)
Definition functionsProgram (names : list string) : Node :=
  normalizeAST
    (program (JS.join JS.nl (map emptyFunctionSource names))
             (map emptyFunction names))
    "javascript".

(** A Java class with two overloads of one method. *)
Definition overloadSource1 : string := "void put(int k){}".
Definition overloadSource2 : string := "void put(String k){}".

Definition javaMethod (src paramText : string) : SyntaxNode :=
  mkSyntaxNode "method_declaration" src None
    [ leaf "void_type" "void" (Some "type");
      leaf "identifier" "put" (Some "name");
      mkSyntaxNode "formal_parameters" ("(" ++ paramText ++ ")")
        (Some "parameters")
        [ token "("; leaf "formal_parameter" paramText None; token ")" ];
      mkSyntaxNode "block" "{}" (Some "body") [ token "{"; token "}" ] ].

Definition overloadsAST : Node :=
  normalizeAST
    (program (overloadSource1 ++ JS.nl ++ overloadSource2)
       [ javaMethod overloadSource1 "int k";
         javaMethod overloadSource2 "String k" ])
    "java".

(** The [diff] package on the inputs of the examples: for two equal texts
    [diffLines] reports no added and no removed chunk, and [createPatch]
    returns the header alone.  For two different texts this coarse line diff
    reports the whole old text removed and the whole new text added. *)
Fixpoint countNewlines (s : string) : nat :=
  match s with
  | EmptyString => 0
  | String c s' =>
      (if Ascii.eqb c (ascii_of_nat 10) then 1 else 0) + countNewlines s'
  end.

Definition lineCount (s : string) : nat :=
  if String.eqb s EmptyString then 0 else S (countNewlines s).

Definition wholeTextDiffLines (oldStr newStr : string) : list LineChange :=
  if String.eqb oldStr newStr then
    if String.eqb oldStr EmptyString then []
    else [mkLineChange false false (lineCount oldStr) oldStr]
  else [ mkLineChange false true (lineCount oldStr) oldStr;
         mkLineChange true false (lineCount newStr) newStr ].

Definition patchHeader (fileName : string) : string :=
  "Index: " ++ fileName ++ JS.nl
  ++ "===================================================================" ++ JS.nl
  ++ "--- " ++ fileName ++ JS.nl
  ++ "+++ " ++ fileName ++ JS.nl.

Definition wholeTextCreatePatch (fileName oldStr newStr : string) : string :=
  if String.eqb oldStr newStr then patchHeader fileName
  else patchHeader fileName
       ++ "@@ -1," ++ JS.numberToString (lineCount oldStr)
       ++ " +1," ++ JS.numberToString (lineCount newStr) ++ " @@" ++ JS.nl
       ++ "-" ++ oldStr ++ JS.nl ++ "+" ++ newStr ++ JS.nl.

(** A parser that knows the one program of the example. *)
Definition addParser (lang src : string) : option SyntaxNode :=
  if String.eqb lang "javascript" && String.eqb src addSource
  then Some addTree else None.

(** A regular-expression engine that finds no match. *)
Definition noMatch (src : string) (pattern : RegExp) : option (list string) :=
  None.

(** An engine that finds one match of every pattern in every text. *)
Definition oneMatch (src : string) (pattern : RegExp) : option (list string) :=
  Some [src].

Definition addRequest : Service.Request :=
  Service.mkRequest addSource addSource "javascript" [] true.

(** A node with a name and parameters, for the similarity examples. *)
Definition namedNode (ty nm : string) (params : list string) : Node :=
  mkNode ty EmptyString "java" (mkMetadata (Some nm) params []) [].

(** Three raw detections, two of them of one type. *)
Definition threeDetections : list Classifier.Detection :=
  [ Classifier.mkDetection "Testing" 2 ["Found jest in file changes"] 0.8%Q;
    Classifier.mkDetection "Service Extraction" 4
      ["Found express in file changes"] 0.8%Q;
    Classifier.mkDetection "Testing" 2 ["Found mocha in file changes"] 0.8%Q ].

End Examples.


(** ** What the statements on identical sources assume and conclude *)

Module Unchanged.
Import AST Mapper Differ.

(** The name that the mapper reads from a node object. *)
Definition nodeName (r : Ref) : option string := name (metadata (node r)).

(** The [diff] package on two equal texts: [diffLines] reports no added and
    no removed chunk, and [createPatch] returns the header alone. *)
Definition quietDiffLines (diffLines : string -> string -> list LineChange)
  : Prop :=
  forall t,
    Forall (fun c => lc_added c = false /\ lc_removed c = false)
           (diffLines t t).

Definition headerOnlyPatch
             (createPatch : string -> string -> string -> string) : Prop :=
  forall t, createPatch "main" t t = Examples.patchHeader "main".

(** The diff object of two trees between which nothing changed. *)
Definition unchangedDiffs : ASTDiffs :=
  mkASTDiffs
    [mkFileEntry "main"
       (mkFileChanges (Examples.patchHeader "main") EmptyString 0 0 0 0)]
    (mkOverall 0 0 0 0 0 None None None None).

End Unchanged.

(* ================================================================== *)
(** * Part II: properties                                              *)
(* ================================================================== *)

(** ** General list facts *)

Lemma NoDup_map_factor :
  forall {A B C} (h : A -> B) (g : B -> C) (l : list A),
    NoDup (map (fun x => g (h x)) l) -> NoDup (map h l).
Proof.
  intros A B C h g l. induction l as [|x l IH]; simpl; intros H.
  - constructor.
  - inversion H as [|? ? Hnotin Hnd]; subst. constructor.
    + intros Hin. apply Hnotin.
      apply in_map_iff in Hin. destruct Hin as [y [Hy Hin]].
      apply in_map_iff. exists y. split; [now rewrite Hy | exact Hin].
    + now apply IH.
Qed.

Lemma arrayIncludes_In :
  forall arr item, JS.arrayIncludes arr item = true <-> In item arr.
Proof.
  intros arr item. unfold JS.arrayIncludes. rewrite existsb_exists. split.
  - intros [x [Hin Heq]]. apply String.eqb_eq in Heq. now subst.
  - intros Hin. exists item. split; [exact Hin | apply String.eqb_refl].
Qed.

Lemma arrayIncludes_not_In :
  forall arr item, JS.arrayIncludes arr item = false <-> ~ In item arr.
Proof.
  intros arr item. rewrite <- arrayIncludes_In.
  destruct (JS.arrayIncludes arr item); split; intros; congruence.
Qed.

(** ** Impact scorer *)

Module ScorerFacts.
Import Scorer.
Local Open Scope R_scope.

Ltac level_cases :=
  unfold determineLevel, levelThresholds;
  repeat match goal with
         | |- context [Rle_dec ?a ?b] => destruct (Rle_dec a b)
         end;
  try lra; try lia; try reflexivity.

Lemma determineLevel_monotone :
  forall s1 s2 : R, s1 <= s2 -> (determineLevel s1 <= determineLevel s2)%nat.
Proof. intros s1 s2 H. level_cases. Qed.

Lemma determineLevel_values :
  map (fun s => determineLevel (IZR s)) [0; 19; 20; 39; 40; 59; 60; 79; 80; 100]%Z
  = [0; 0; 1; 1; 2; 2; 3; 3; 4; 4]%nat.
Proof.
  simpl. repeat (apply f_equal2; [solve [level_cases] | ]). reflexivity.
Qed.

(** The level is the index of the last threshold that the score reaches. *)
Lemma determineLevel_step :
  forall s : R,
    (0 <= s -> levelThresholds (determineLevel s) <= s)
    /\ ((determineLevel s < 4)%nat
        -> s < levelThresholds (S (determineLevel s))).
Proof. intros s. split; intros H; revert H; level_cases. Qed.

(** C6: the level is a monotone non-decreasing step function of the score:
    the thresholds are 0, 20, 40, 60 and 80; on the scores 0, 19, 20, 39, 40,
    59, 60, 79, 80, 100 the levels are 0, 0, 1, 1, 2, 2, 3, 3, 4, 4; the level
    of a non-negative score is the index of the last threshold the score
    reaches; and a larger score never has a smaller level. *)
Theorem determineLevel_monotone_step_function :
  map levelThresholds [0; 1; 2; 3; 4]%nat = [0; 20; 40; 60; 80]
  /\ map (fun s => determineLevel (IZR s))
         [0; 19; 20; 39; 40; 59; 60; 79; 80; 100]%Z
     = [0; 0; 1; 1; 2; 2; 3; 3; 4; 4]%nat
  /\ (forall s : R,
        (0 <= s -> levelThresholds (determineLevel s) <= s)
        /\ ((determineLevel s < 4)%nat
            -> s < levelThresholds (S (determineLevel s))))
  /\ (forall s1 s2 : R,
        s1 <= s2 -> (determineLevel s1 <= determineLevel s2)%nat).
Proof.
  split; [reflexivity | ].
  split; [exact determineLevel_values | ].
  split; [exact determineLevel_step | exact determineLevel_monotone].
Qed.

Lemma determineLevel_monotone_step_function_witness :
  19 <= 20 /\ (determineLevel 19 <= determineLevel 20)%nat.
Proof.
  split; [lra | ].
  apply (proj2 (proj2 (proj2 determineLevel_monotone_step_function)) 19 20).
  lra.
Defined.

Lemma logistic_pos : forall centre slope x, 0 < logistic centre slope x.
Proof.
  intros centre slope x. unfold logistic.
  pose proof (exp_pos (- (x - centre) / slope)) as He.
  apply Rdiv_lt_0_compat; lra.
Qed.

Lemma logistic_lt_100 : forall centre slope x, logistic centre slope x < 100.
Proof.
  intros centre slope x. unfold logistic.
  pose proof (exp_pos (- (x - centre) / slope)) as He.
  apply (Rmult_lt_reg_r (1 + exp (- (x - centre) / slope))); [lra | ].
  unfold Rdiv. rewrite Rmult_assoc, Rinv_l by lra. lra.
Qed.

Lemma normalizeLinesChanged_zero : normalizeLinesChanged 0 = 0.
Proof.
  unfold normalizeLinesChanged. destruct (Req_dec_T 0 0) as [_ | H];
    [reflexivity | now contradiction H].
Qed.

Lemma normalizeASTNodes_zero : normalizeASTNodes 0 = 0.
Proof.
  unfold normalizeASTNodes. destruct (Req_dec_T 0 0) as [_ | H];
    [reflexivity | now contradiction H].
Qed.

Lemma normalizeLinesChanged_nonzero :
  forall x, x <> 0 -> normalizeLinesChanged x = Rmin (logistic 200 100 x) 100.
Proof.
  intros x Hx. unfold normalizeLinesChanged.
  destruct (Req_dec_T x 0); [contradiction | reflexivity].
Qed.

Lemma normalizeASTNodes_nonzero :
  forall x, x <> 0 -> normalizeASTNodes x = Rmin (logistic 50 25 x) 100.
Proof.
  intros x Hx. unfold normalizeASTNodes.
  destruct (Req_dec_T x 0); [contradiction | reflexivity].
Qed.

(** C10: the two logistic normalizers return 0 at 0 although both curves
    are positive there; at every positive input they return the value of
    the curve capped at 100 (and the curve stays below 100, so the cap never
    binds on real numbers). *)
Theorem logistic_normalizers_special_case_zero :
  normalizeLinesChanged 0 = 0
  /\ normalizeASTNodes 0 = 0
  /\ 0 < logistic 200 100 0
  /\ 0 < logistic 50 25 0
  /\ (forall x, 0 < x ->
        normalizeLinesChanged x = Rmin (logistic 200 100 x) 100
        /\ normalizeLinesChanged x = 100 / (1 + exp (- (x - 200) / 100)))
  /\ (forall x, 0 < x ->
        normalizeASTNodes x = Rmin (logistic 50 25 x) 100
        /\ normalizeASTNodes x = 100 / (1 + exp (- (x - 50) / 25))).
Proof.
  split; [exact normalizeLinesChanged_zero | ].
  split; [exact normalizeASTNodes_zero | ].
  split; [apply logistic_pos | ].
  split; [apply logistic_pos | ].
  split; intros x Hx.
  - assert (Hn : normalizeLinesChanged x = Rmin (logistic 200 100 x) 100)
      by (apply normalizeLinesChanged_nonzero; lra).
    split; [exact Hn | ]. rewrite Hn.
    apply Rmin_left. left. apply logistic_lt_100.
  - assert (Hn : normalizeASTNodes x = Rmin (logistic 50 25 x) 100)
      by (apply normalizeASTNodes_nonzero; lra).
    split; [exact Hn | ]. rewrite Hn.
    apply Rmin_left. left. apply logistic_lt_100.
Qed.

Lemma logistic_normalizers_special_case_zero_witness :
  0 < 1 /\ normalizeLinesChanged 1 = Rmin (logistic 200 100 1) 100.
Proof.
  split; [lra | ].
  apply (proj1 (proj2 (proj2 (proj2 (proj2
           logistic_normalizers_special_case_zero)))) 1).
  lra.
Defined.

End ScorerFacts.

(** ** Risk scanner *)

Module ScannerFacts.
Import Scanner Reference.

Lemma flagKey_triple : forall flag, flagKey flag = keyOfTriple (triple flag).
Proof. reflexivity. Qed.

Lemma dedupFrom_keys :
  forall fs seen,
    NoDup (map flagKey (dedupFrom seen fs))
    /\ forall flag, In flag (dedupFrom seen fs) -> ~ In (flagKey flag) seen.
Proof.
  induction fs as [|flag fs IH]; intros seen; simpl.
  - split; [constructor | intros ? []].
  - destruct (JS.arrayIncludes seen (flagKey flag)) eqn:Hseen.
    + apply IH.
    + destruct (IH (flagKey flag :: seen)) as [Hnd Hout].
      apply arrayIncludes_not_In in Hseen. split.
      * simpl. constructor; [ | exact Hnd].
        intros Hin. apply in_map_iff in Hin.
        destruct Hin as [other [Hkey Hin]].
        apply (Hout other Hin). left. now symmetry.
      * intros other [Heq | Hin].
        -- now subst other.
        -- intros Hs. apply (Hout other Hin). now right.
Qed.

Lemma deduplicateFlags_NoDup :
  forall fs, NoDup (map triple (deduplicateFlags fs)).
Proof.
  intros fs. apply (NoDup_map_factor triple keyOfTriple).
  exact (proj1 (dedupFrom_keys fs [])).
Qed.

(** Every flag that survives the deduplication was in the input, and every
    key of the input survives. *)
Lemma dedupFrom_subset :
  forall fs seen flag, In flag (dedupFrom seen fs) -> In flag fs.
Proof.
  induction fs as [|f fs IH]; intros seen flag; simpl; [tauto | ].
  destruct (JS.arrayIncludes seen (flagKey f)).
  - intros H. right. now apply (IH seen).
  - intros [H | H]; [now left | right; now apply (IH (flagKey f :: seen))].
Qed.

Lemma dedupFrom_complete :
  forall fs seen flag,
    In flag fs -> ~ In (flagKey flag) seen ->
    In (flagKey flag) (map flagKey (dedupFrom seen fs)).
Proof.
  induction fs as [|f fs IH]; intros seen flag; simpl; [tauto | ].
  intros [Heq | Hin] Hseen.
  - subst f. apply arrayIncludes_not_In in Hseen. rewrite Hseen. now left.
  - destruct (JS.arrayIncludes seen (flagKey f)) eqn:Hf.
    + now apply IH.
    + simpl. destruct (string_dec (flagKey f) (flagKey flag)) as [E | E].
      * now left.
      * right. apply IH; [exact Hin | ].
        intros [H | H]; [contradiction | contradiction].
Qed.

(** C8: with [includeSecurityScan] false the scan returns no flag, whatever
    the source, the language and the behaviour of the regular-expression
    engine: none of the three families is consulted. *)
Theorem scan_disabled_is_empty :
  forall (stringMatch : string -> RegExp -> option (list string))
         (sourceText lang : string),
    scan stringMatch sourceText lang false = [].
Proof. intros stringMatch sourceText lang. reflexivity. Qed.

(** C9: no two flags of a scan result share their kind, severity and
    description. *)
Theorem scan_flags_are_deduplicated :
  forall (stringMatch : string -> RegExp -> option (list string))
         (sourceText lang : string) (includeSecurityScan : bool),
    NoDup (map triple (scan stringMatch sourceText lang includeSecurityScan)).
Proof.
  intros stringMatch sourceText lang includeSecurityScan. unfold scan.
  apply deduplicateFlags_NoDup.
Qed.

(** The deduplication does drop flags: an engine that reports one match for
    every pattern yields 55 raw flags, of which 12 remain. *)
Example scan_oneMatch_counts :
  List.length (scanSecurity Examples.oneMatch "x"
               ++ scanLicenses Examples.oneMatch "x"
               ++ scanCompatibility Examples.oneMatch "x") = 55
  /\ List.length (scan Examples.oneMatch "x" "javascript" true) = 12.
Proof. split; vm_compute; reflexivity. Qed.

End ScannerFacts.

(** ** Pattern classifier: merging *)

Module MergeFacts.
Import Classifier Reference.

(** *** [JS.uniq] *)

Lemma uniq_In :
  forall arr seen x, In x (JS.uniq seen arr) <-> In x arr /\ ~ In x seen.
Proof.
  induction arr as [|a arr IH]; intros seen x; simpl.
  - tauto.
  - destruct (JS.arrayIncludes seen a) eqn:Ha.
    + apply arrayIncludes_In in Ha. rewrite IH. split.
      * intros [H1 H2]. split; [now right | exact H2].
      * intros [[H1 | H1] H2]; [subst; contradiction | now split].
    + apply arrayIncludes_not_In in Ha. simpl. rewrite IH. simpl. split.
      * intros [H | [H1 H2]]; [subst; split; [now left | exact Ha] | ].
        split; [now right | ]. intros H. apply H2. now right.
      * intros [[H1 | H1] H2]; [now left | ].
        destruct (string_dec a x) as [E | E]; [now left | right].
        split; [exact H1 | ]. intros [H | H]; contradiction.
Qed.

Lemma uniq_NoDup : forall arr seen, NoDup (JS.uniq seen arr).
Proof.
  induction arr as [|a arr IH]; intros seen; simpl.
  - constructor.
  - destruct (JS.arrayIncludes seen a) eqn:Ha; [apply IH | ].
    constructor; [ | apply IH].
    rewrite uniq_In. intros [_ H]. apply H. now left.
Qed.

(** *** The tag of a type after the merging loop *)

Lemma lookup_mergeStep :
  forall ty merged d,
    lookup ty (mergeStep merged d) = absorb ty (lookup ty merged) d.
Proof.
  intros ty merged d. unfold absorb, lookup.
  induction merged as [|e merged IH]; simpl.
  - destruct (String.eqb (det_type d) ty); reflexivity.
  - destruct (String.eqb (det_type e) (det_type d)) eqn:Hed; simpl.
    + apply String.eqb_eq in Hed. rewrite Hed.
      destruct (String.eqb (det_type d) ty); reflexivity.
    + destruct (String.eqb (det_type e) ty) eqn:Het.
      * apply String.eqb_eq in Het. subst ty.
        rewrite String.eqb_sym in Hed. now rewrite Hed.
      * exact IH.
Qed.

Lemma lookup_fold :
  forall ty ds merged,
    lookup ty (fold_left mergeStep ds merged)
    = fold_left (absorb ty) ds (lookup ty merged).
Proof.
  intros ty ds. induction ds as [|d ds IH]; intros merged; simpl.
  - reflexivity.
  - rewrite IH. now rewrite lookup_mergeStep.
Qed.

Lemma absorb_fold_ofType :
  forall ty ds o,
    fold_left (absorb ty) ds o
    = match ofType ty ds, o with
      | [], _ => o
      | g0 :: rest, None => Some (fold_left mergeInto rest g0)
      | g :: rest, Some e => Some (fold_left mergeInto (g :: rest) e)
      end.
Proof.
  intros ty ds. induction ds as [|d ds IH]; intros o; simpl.
  - now destruct o.
  - rewrite IH. unfold absorb, ofType. simpl.
    destruct (String.eqb (det_type d) ty) eqn:Hd; simpl.
    + fold (ofType ty ds).
      destruct (ofType ty ds) as [|g rest]; destruct o; reflexivity.
    + reflexivity.
Qed.

Lemma mergeStep_types :
  forall merged d,
    map det_type (mergeStep merged d)
    = if JS.arrayIncludes (map det_type merged) (det_type d)
      then map det_type merged
      else map det_type merged ++ [det_type d].
Proof.
  induction merged as [|e merged IH]; intros d; simpl.
  - reflexivity.
  - rewrite (String.eqb_sym (det_type d) (det_type e)).
    destruct (String.eqb (det_type e) (det_type d)) eqn:Hed; simpl.
    + reflexivity.
    + rewrite IH. unfold JS.arrayIncludes.
      now destruct (existsb (String.eqb (det_type d)) (map det_type merged)).
Qed.

Lemma fold_mergeStep_types :
  forall ds merged,
    NoDup (map det_type merged) ->
    NoDup (map det_type (fold_left mergeStep ds merged))
    /\ forall ty, In ty (map det_type (fold_left mergeStep ds merged))
                  <-> In ty (map det_type merged) \/ In ty (map det_type ds).
Proof.
  induction ds as [|d ds IH]; intros merged Hnd; simpl.
  - split; [exact Hnd | tauto].
  - assert (Hstep : NoDup (map det_type (mergeStep merged d))
                    /\ forall ty, In ty (map det_type (mergeStep merged d))
                                  <-> In ty (map det_type merged)
                                      \/ ty = det_type d).
    { rewrite mergeStep_types.
      destruct (JS.arrayIncludes (map det_type merged) (det_type d)) eqn:Hin.
      - apply arrayIncludes_In in Hin. split; [exact Hnd | ].
        intros ty. split; [tauto | intros [H | H]; [exact H | now subst]].
      - apply arrayIncludes_not_In in Hin. split.
        + apply NoDup_app; [exact Hnd | repeat constructor; simpl; tauto | ].
          intros x Hx [Hx' | []]. subst. contradiction.
        + intros ty. rewrite in_app_iff. simpl. intuition. }
    destruct Hstep as [Hnd' Htypes].
    destruct (IH _ Hnd') as [Hnd'' Hall]. split; [exact Hnd'' | ].
    intros ty. rewrite Hall, Htypes. intuition.
Qed.

Lemma lookup_In :
  forall merged tag,
    NoDup (map det_type merged) -> In tag merged ->
    lookup (det_type tag) merged = Some tag.
Proof.
  induction merged as [|e merged IH]; intros tag Hnd Hin; simpl in *.
  - contradiction.
  - inversion Hnd as [|? ? Hnotin Hnd']; subst.
    destruct Hin as [Heq | Hin].
    + subst e. now rewrite String.eqb_refl.
    + destruct (String.eqb (det_type e) (det_type tag)) eqn:He.
      * apply String.eqb_eq in He. exfalso. apply Hnotin. rewrite He.
        now apply in_map.
      * now apply IH.
Qed.

(** *** What the repeated merge computes, field by field *)

Lemma fold_mergeInto_type :
  forall rest g0, det_type (fold_left mergeInto rest g0) = det_type g0.
Proof.
  induction rest as [|d rest IH]; intros g0; simpl; [reflexivity | ].
  now rewrite IH.
Qed.

Lemma fold_mergeInto_level :
  forall rest g0,
    level (fold_left mergeInto rest g0) = maximum (level g0) (map level rest).
Proof.
  unfold maximum.
  induction rest as [|d rest IH]; intros g0; simpl; [reflexivity | ].
  now rewrite IH.
Qed.

Lemma fold_mergeInto_confidence :
  forall rest g0,
    confidence (fold_left mergeInto rest g0)
    = runningAverage (confidence g0) (map confidence rest).
Proof.
  unfold runningAverage.
  induction rest as [|d rest IH]; intros g0; simpl; [reflexivity | ].
  now rewrite IH.
Qed.

Lemma fold_mergeInto_evidence :
  forall rest g0,
    NoDup (evidence g0) ->
    NoDup (evidence (fold_left mergeInto rest g0))
    /\ forall e, In e (evidence (fold_left mergeInto rest g0))
                 <-> exists d, In d (g0 :: rest) /\ In e (evidence d).
Proof.
  induction rest as [|d rest IH]; intros g0 Hnd; simpl.
  - split; [exact Hnd | ]. intros e. split.
    + intros H. exists g0. tauto.
    + intros [d [[Hd | []] He]]. now subst.
  - destruct (IH (mergeInto g0 d)) as [Hnd' Hall].
    { simpl. apply uniq_NoDup. }
    split; [exact Hnd' | ]. intros e. rewrite Hall. split.
    + intros [x [[Hx | Hx] He]].
      * subst x. simpl in He. apply uniq_In in He. destruct He as [He _].
        apply in_app_iff in He. destruct He as [He | He].
        -- exists g0. simpl. tauto.
        -- exists d. simpl. tauto.
      * exists x. simpl. tauto.
    + intros [x [[Hx | [Hx | Hx]] He]].
      * subst x. exists (mergeInto g0 d). split; [now left | ].
        simpl. apply uniq_In. split; [apply in_app_iff; now left | tauto].
      * subst x. exists (mergeInto g0 d). split; [now left | ].
        simpl. apply uniq_In. split; [apply in_app_iff; now right | tauto].
      * exists x. simpl. tauto.
Qed.

(** *** The sort *)

Lemma sortInsert_perm :
  forall {A} (cmp : A -> A -> Z) x l, Permutation (sortInsert cmp x l) (x :: l).
Proof.
  intros A cmp x l. induction l as [|y l IH]; simpl.
  - apply Permutation_refl.
  - destruct (0 <? cmp x y)%Z.
    + eapply Permutation_trans; [apply perm_skip, IH | apply perm_swap].
    + apply Permutation_refl.
Qed.

Lemma sort_perm :
  forall {A} (cmp : A -> A -> Z) l, Permutation (sort cmp l) l.
Proof.
  intros A cmp l. induction l as [|x l IH]; simpl.
  - apply Permutation_refl.
  - eapply Permutation_trans; [apply sortInsert_perm | now apply perm_skip].
Qed.

Lemma sortInsert_sorted :
  forall x l,
    StronglySorted levelGe l ->
    StronglySorted levelGe (sortInsert byLevelDescending x l).
Proof.
  intros x l. induction l as [|y l IH]; intros Hs; simpl.
  - repeat constructor.
  - inversion Hs as [|? ? Hs' Hall]; subst.
    unfold byLevelDescending at 1.
    destruct (0 <? Z.of_nat (level y) - Z.of_nat (level x))%Z eqn:Hc.
    + apply Z.ltb_lt in Hc. constructor; [now apply IH | ].
      rewrite Forall_forall in *. intros z Hz.
      apply (Permutation_in _ (sortInsert_perm byLevelDescending x l)) in Hz.
      destruct Hz as [Hz | Hz]; [subst z; unfold levelGe; lia | now apply Hall].
    + apply Z.ltb_ge in Hc. constructor; [exact Hs | ].
      constructor; [unfold levelGe; lia | ].
      rewrite Forall_forall in *. intros z Hz.
      specialize (Hall z Hz). unfold levelGe in *. lia.
Qed.

Lemma sort_sorted :
  forall l, StronglySorted levelGe (sort byLevelDescending l).
Proof.
  induction l as [|x l IH]; simpl; [constructor | now apply sortInsert_sorted].
Qed.

End MergeFacts.

Module ClassifierFacts.
Import AST Mapper Differ Classifier Reference MergeFacts.

Lemma maximum_spec :
  forall rest first,
    In (maximum first rest) (first :: rest)
    /\ forall x, In x (first :: rest) -> x <= maximum first rest.
Proof.
  unfold maximum.
  induction rest as [|y rest IH]; intros first; simpl.
  - split; [now left | intros x [H | []]; subst; lia].
  - destruct (IH (Nat.max first y)) as [Hin Hle]. split.
    + destruct Hin as [Hin | Hin]; [ | now right; right].
      destruct (Nat.max_dec first y) as [E | E]; [left | right; left];
        congruence.
    + intros x [Hx | [Hx | Hx]].
      * subst x. specialize (Hle (Nat.max first y) (or_introl eq_refl)). lia.
      * subst x. specialize (Hle (Nat.max first y) (or_introl eq_refl)). lia.
      * apply Hle. now right.
Qed.

Lemma ofType_In :
  forall ty ds d, In d (ofType ty ds) -> In d ds /\ det_type d = ty.
Proof.
  intros ty ds d H. unfold ofType in H. apply filter_In in H.
  destruct H as [H1 H2]. apply String.eqb_eq in H2. tauto.
Qed.

(** The tags before the final sort, one per type, each the repeated merge
    of the detections of its type. *)
Lemma merged_tag_is_group_merge :
  forall ds tag,
    In tag (fold_left mergeStep ds []) ->
    exists g0 rest,
      ofType (det_type tag) ds = g0 :: rest
      /\ tag = fold_left mergeInto rest g0.
Proof.
  intros ds tag Hin.
  destruct (fold_mergeStep_types ds []) as [Hnd _]; [constructor | ].
  pose proof (lookup_In _ _ Hnd Hin) as Hl.
  rewrite lookup_fold, absorb_fold_ofType in Hl. simpl in Hl.
  destruct (ofType (det_type tag) ds) as [|g0 rest]; [discriminate | ].
  exists g0, rest. split; [reflexivity | congruence].
Qed.

(** C7: merging raw detections (each with duplicate-free evidence, as every
    detection of the classifier has) yields exactly one tag per distinct
    type; the tag's level is the greatest level of the detections of its
    type, its evidence is the duplicate-free union of their evidence, its
    confidence is their running average (the first confidence, then
    repeatedly the mean of the value so far and the next confidence); and
    the tags are sorted by level, highest first. *)
Theorem mergeRefactorTypes_one_tag_per_type :
  forall ds : list Detection,
    Forall (fun d => NoDup (evidence d)) ds ->
    NoDup (map det_type (mergeRefactorTypes ds))
    /\ (forall ty, In ty (map det_type (mergeRefactorTypes ds))
                   <-> In ty (map det_type ds))
    /\ (forall tag, In tag (mergeRefactorTypes ds) ->
          exists g0 rest,
            ofType (det_type tag) ds = g0 :: rest
            /\ (forall d, In d (g0 :: rest) -> level d <= level tag)
            /\ (exists d, In d (g0 :: rest) /\ level d = level tag)
            /\ NoDup (evidence tag)
            /\ (forall e, In e (evidence tag)
                          <-> exists d, In d (g0 :: rest) /\ In e (evidence d))
            /\ confidence tag
               = runningAverage (confidence g0) (map confidence rest))
    /\ StronglySorted levelGe (mergeRefactorTypes ds).
Proof.
  intros ds Hev. unfold mergeRefactorTypes.
  pose proof (sort_perm byLevelDescending (fold_left mergeStep ds [])) as Hperm.
  destruct (fold_mergeStep_types ds []) as [Hnd Htypes]; [constructor | ].
  split; [ | split; [ | split]].
  - eapply Permutation_NoDup;
      [apply Permutation_map, Permutation_sym, Hperm | exact Hnd].
  - intros ty. split.
    + intros H.
      apply (Permutation_in _ (Permutation_map det_type Hperm)) in H.
      apply Htypes in H. destruct H as [[] | H]. exact H.
    + intros H.
      apply (Permutation_in _
               (Permutation_map det_type (Permutation_sym Hperm))).
      apply Htypes. now right.
  - intros tag Hin.
    apply (Permutation_in _ Hperm) in Hin.
    destruct (merged_tag_is_group_merge ds tag Hin) as [g0 [rest [Hg Htag]]].
    exists g0, rest. split; [exact Hg | ].
    assert (Hg0 : NoDup (evidence g0)).
    { rewrite Forall_forall in Hev. apply Hev.
      apply (ofType_In (det_type tag)). rewrite Hg. now left. }
    destruct (maximum_spec (map level rest) (level g0)) as [Hmax Hle].
    destruct (fold_mergeInto_evidence rest g0 Hg0) as [Hnde Hall].
    rewrite Htag.
    rewrite fold_mergeInto_level, fold_mergeInto_confidence.
    split; [ | split; [ | split; [exact Hnde | split; [exact Hall | reflexivity]]]].
    + intros d Hd. apply Hle. change (In (level d) (map level (g0 :: rest))).
      now apply in_map.
    + change (In (maximum (level g0) (map level rest)) (map level (g0 :: rest)))
        in Hmax.
      apply in_map_iff in Hmax. destruct Hmax as [d [Hd1 Hd2]].
      exists d. tauto.
  - apply sort_sorted.
Qed.

Lemma mergeRefactorTypes_one_tag_per_type_witness :
  Forall (fun d => NoDup (evidence d)) Examples.threeDetections
  /\ NoDup (map det_type (mergeRefactorTypes Examples.threeDetections)).
Proof.
  assert (H : Forall (fun d => NoDup (evidence d)) Examples.threeDetections).
  { repeat constructor; simpl; tauto. }
  split; [exact H | ].
  exact (proj1 (mergeRefactorTypes_one_tag_per_type Examples.threeDetections H)).
Defined.

Example mergeRefactorTypes_threeDetections :
  map (fun t => (det_type t, level t, evidence t))
      (mergeRefactorTypes Examples.threeDetections)
  = [ ("Service Extraction", 4, ["Found express in file changes"]);
      ("Testing", 2, ["Found jest in file changes";
                      "Found mocha in file changes"]) ].
Proof. vm_compute. reflexivity. Qed.

(** The running average weighs late detections more than early ones: for
    the confidences 1, 0 and 0 it is 1/4, where their arithmetic mean is
    1/3. *)
Example runningAverage_three :
  (runningAverage 1 [0; 0] == 1 # 4)%Q.
Proof. vm_compute. reflexivity. Qed.

(** Every raw detection of the classifier carries one evidence string. *)
Lemma detectPatterns_singleton_evidence :
  forall subject condition d,
    In d (detectPatterns subject condition) -> exists e, evidence d = [e].
Proof.
  intros subject condition d H. unfold detectPatterns in H.
  apply in_flat_map in H. destruct H as [entry [_ H]].
  apply in_flat_map in H. destruct H as [rule [_ H]].
  destruct (matchesPattern subject rule condition); [ | contradiction].
  destruct H as [H | []]. subst d. simpl. eauto.
Qed.

Lemma analyzeFileChanges_singleton_evidence :
  forall file d, In d (analyzeFileChanges file) -> exists e, evidence d = [e].
Proof.
  intros file d H. unfold analyzeFileChanges in H.
  apply in_app_iff in H. destruct H as [H | H].
  - destruct (negb (textDiff (fileChanges file) =? EmptyString)%string);
      [ | contradiction].
    apply in_flat_map in H. destruct H as [entry [_ H]].
    apply in_flat_map in H. destruct H as [rule [_ H]].
    match type of H with In _ (if ?c then _ else _) => destruct c end;
      [ | contradiction].
    destruct H as [H | []]. subst d. simpl. eauto.
  - destruct (negb (astDiffSummary (fileChanges file) =? EmptyString)%string);
      [ | contradiction].
    match type of H with In _ (if ?c then _ else _) => destruct c end;
      [ | contradiction].
    destruct H as [H | []]. subst d. simpl. eauto.
Qed.

Lemma rawDetections_duplicate_free_evidence :
  forall astDiffs,
    Forall (fun d => NoDup (evidence d)) (rawDetections astDiffs).
Proof.
  intros astDiffs. apply Forall_forall. intros d H.
  assert (Hs : exists e, evidence d = [e]).
  { unfold rawDetections, forEachOpt in H.
    repeat (apply in_app_iff in H; destruct H as [H | H]).
    - destruct (addedNodes (overall astDiffs)); [ | contradiction].
      apply in_flat_map in H. destruct H as [n [_ H]].
      now apply detectPatterns_singleton_evidence in H.
    - destruct (removedNodes (overall astDiffs)); [ | contradiction].
      apply in_flat_map in H. destruct H as [n [_ H]].
      now apply detectPatterns_singleton_evidence in H.
    - destruct (modifiedNodes (overall astDiffs)); [ | contradiction].
      apply in_flat_map in H. destruct H as [n [_ H]].
      now apply detectPatterns_singleton_evidence in H.
    - apply in_flat_map in H. destruct H as [file [_ H]].
      now apply analyzeFileChanges_singleton_evidence in H. }
  destruct Hs as [e He]. rewrite He. repeat constructor. simpl. tauto.
Qed.

End ClassifierFacts.

(** ** Pattern classifier: what reaches it from the diff engine *)

Module DetectionFacts.
Import AST Mapper Differ Classifier Reference MergeFacts.

Lemma mergeRefactorTypes_types :
  forall ds ty,
    In ty (map det_type (mergeRefactorTypes ds)) <-> In ty (map det_type ds).
Proof.
  intros ds ty. unfold mergeRefactorTypes.
  pose proof (sort_perm byLevelDescending (fold_left mergeStep ds [])) as Hperm.
  destruct (fold_mergeStep_types ds []) as [_ Htypes]; [constructor | ].
  split.
  - intros H.
    apply (Permutation_in _ (Permutation_map det_type Hperm)) in H.
    apply Htypes in H. destruct H as [[] | H]. exact H.
  - intros H.
    apply (Permutation_in _
             (Permutation_map det_type (Permutation_sym Hperm))).
    apply Htypes. now right.
Qed.

(** The file-level analysis only fires rules that have a text, so it never
    reports a type all of whose rules test a node. *)
Lemma analyzeFileChanges_types :
  forall file d,
    In d (analyzeFileChanges file) -> ~ In (det_type d) nodeOnlyTypes.
Proof.
  intros file d H. unfold analyzeFileChanges in H.
  apply in_app_iff in H. destruct H as [H | H].
  - destruct (negb (textDiff (fileChanges file) =? EmptyString)%string);
      [ | contradiction].
    apply in_flat_map in H. destruct H as [entry [Hentry H]].
    apply in_flat_map in H. destruct H as [rule [Hrule H]].
    destruct (JS.truthy (rule_text rule)) eqn:Htext; simpl in H;
      [ | contradiction].
    match type of H with In _ (if ?c then _ else _) => destruct c end;
      [ | contradiction].
    destruct H as [H | []]. subst d. cbn [det_type].
    assert (Hcheck : textRulesAvoid nodeOnlyTypes = true)
      by (vm_compute; reflexivity).
    unfold textRulesAvoid in Hcheck.
    rewrite forallb_forall in Hcheck. specialize (Hcheck entry Hentry).
    rewrite forallb_forall in Hcheck. specialize (Hcheck rule Hrule).
    rewrite Htext in Hcheck. cbn [negb orb] in Hcheck.
    apply negb_true_iff in Hcheck. now apply arrayIncludes_not_In.
  - destruct (negb (astDiffSummary (fileChanges file) =? EmptyString)%string);
      [ | contradiction].
    match type of H with In _ (if ?c then _ else _) => destruct c end;
      [ | contradiction].
    destruct H as [H | []]. subst d. simpl.
    intros [E | [E | [E | []]]]; discriminate.
Qed.

(** The object that [computeDiffs] returns has none of the three node
    collections, so the classifier sees the file entries only. *)
Lemma rawDetections_computeDiffs :
  forall diffLines createPatch legacyAST refactoredAST mappings,
    rawDetections
      (computeDiffs diffLines createPatch legacyAST refactoredAST mappings)
    = flat_map analyzeFileChanges
        (files (computeDiffs diffLines createPatch legacyAST refactoredAST
                             mappings)).
Proof. reflexivity. Qed.

Lemma classify_computeDiffs_types :
  forall diffLines createPatch legacyAST refactoredAST mappings lang ty,
    In ty (map det_type
             (classify (computeDiffs diffLines createPatch legacyAST
                                     refactoredAST mappings) lang)) ->
    ~ In ty nodeOnlyTypes.
Proof.
  intros diffLines createPatch legacyAST refactoredAST mappings lang ty H.
  unfold classify in H. apply (proj1 (mergeRefactorTypes_types _ _)) in H.
  rewrite rawDetections_computeDiffs in H.
  apply in_map_iff in H. destruct H as [d [Hty H]]. subst ty.
  apply in_flat_map in H. destruct H as [file [_ H]].
  now apply analyzeFileChanges_types in H.
Qed.

(** On a diff object that does carry the added collection, a new function
    is reported as an extracted method. *)
Lemma classify_with_addedNodes :
  forall astDiffs nodes n lang,
    addedNodes (overall astDiffs) = Some nodes ->
    In n nodes ->
    In (type n)
       ["function_declaration"; "method_declaration"; "function_definition"] ->
    In "Extract Method" (map det_type (classify astDiffs lang)).
Proof.
  intros astDiffs nodes n lang Hadded Hn Hty.
  unfold classify. apply (proj2 (mergeRefactorTypes_types _ _)).
  unfold rawDetections. rewrite Hadded. simpl forEachOpt.
  rewrite map_app. apply in_or_app. left.
  apply in_map_iff.
  assert (Hrule : exists rule,
             In rule [ typeRule "function_declaration" "isNew";
                       typeRule "method_declaration" "isNew";
                       typeRule "function_definition" "isNew" ]
             /\ matchesPattern (ofNode n) rule "added" = true).
  { simpl in Hty.
    destruct Hty as [E | [E | [E | []]]];
      [ exists (typeRule "function_declaration" "isNew")
      | exists (typeRule "method_declaration" "isNew")
      | exists (typeRule "function_definition" "isNew") ];
      (split; [simpl; tauto | ]);
      unfold matchesPattern, typeRule, ofNode; simpl; rewrite <- E;
      reflexivity. }
  destruct Hrule as [rule [Hin Hmatch]].
  exists (mkDetection "Extract Method" 2
            [generateEvidence (ofNode n) rule]
            (calculateConfidence (ofNode n) rule)).
  split; [reflexivity | ].
  apply in_flat_map. exists n. split; [exact Hn | ].
  unfold detectPatterns. apply in_flat_map.
  exists ("extractMethod",
          mkPattern "Extract Method"
            [ typeRule "function_declaration" "isNew";
              typeRule "method_declaration" "isNew";
              typeRule "function_definition" "isNew" ] 2).
  split; [left; reflexivity | ].
  apply in_flat_map. exists rule. split; [exact Hin | ].
  rewrite Hmatch. now left.
Qed.

(** C2, evaluated on the code: the legacy program is empty and the
    refactored program declares one function.  The added collection of the
    diff holds the new function declaration, but the object that
    [computeDiffs] hands to [classify] has no [addedNodes], [removedNodes] or
    [modifiedNodes] property (only the three counters), so [classify] runs
    none of its three node loops and, whatever the text diff is, reports no
    Extract Method tag. *)
Theorem classify_never_sees_the_node_collections :
  (exists r,
      In r (added (computeASTChanges
                     (Examples.functionsProgram [])
                     (Examples.functionsProgram ["helper"])
                     (mapElements (Examples.functionsProgram [])
                                  (Examples.functionsProgram ["helper"]) [])))
      /\ type (node r) = "function_declaration")
  /\ (forall diffLines createPatch legacyAST refactoredAST mappings,
        let ov := overall (computeDiffs diffLines createPatch legacyAST
                                        refactoredAST mappings) in
        addedNodes ov = None /\ removedNodes ov = None
        /\ modifiedNodes ov = None)
  /\ (forall diffLines createPatch legacyAST refactoredAST mappings lang,
        ~ In "Extract Method"
             (map det_type
                (classify (computeDiffs diffLines createPatch legacyAST
                                        refactoredAST mappings) lang))).
Proof.
  split; [ | split].
  - eexists. split; [vm_compute; right; left; reflexivity | reflexivity].
  - intros. repeat split.
  - intros diffLines createPatch legacyAST refactoredAST mappings lang H.
    apply classify_computeDiffs_types in H. apply H. simpl. tauto.
Qed.

End DetectionFacts.

(** ** The rename scenario *)

Module RenameFacts.
Import AST Mapper Differ Classifier Reference DetectionFacts.

(** A rule of the Rename Symbol pattern fires on a modified entry whose
    recorded reasons mention the name, and yields a level-1 tag. *)
Example detectPatterns_name_reason :
  forall l r : Ref,
    map (fun d => (det_type d, level d))
        (detectPatterns
           (ofChange (mkChange l r ["Name changed: computeTotal -> calculateTotal"]))
           "modified")
    = [("Rename Symbol", 1)].
Proof. intros l r. vm_compute. reflexivity. Qed.

(** No reason that [getNodeChanges] can record mentions a name or an
    identifier, unless the node kinds themselves do. *)
Lemma getNodeChanges_reasons :
  forall node1 node2 reason,
    In reason (getNodeChanges node1 node2) ->
    reason = ("Type changed: " ++ type node1 ++ " -> " ++ type node2)%string
    \/ reason = "Content modified" \/ reason = "Metadata changed".
Proof.
  intros node1 node2 reason H. unfold getNodeChanges in H.
  repeat (apply in_app_iff in H; destruct H as [H | H]);
    match type of H with In _ (if ?c then _ else _) => destruct c end;
    simpl in H; try contradiction;
    destruct H as [H | []]; subst reason; auto.
Qed.

(** C3, evaluated on the code: [function computeTotal(items){...}] renamed
    to [calculateTotal] with the same body.  The mapper links the two
    declarations (the names are at distance 5, the similarity is 23/28, above
    0.7) and the diff marks the pair modified; but the recorded reasons are
    "Content modified" and "Metadata changed", neither of which contains
    "name" or "identifier", so [hasNameChange] is false on the pair, and the
    classifier, which moreover never receives the modified collection,
    reports no Rename Symbol tag whatever the text diff is. *)
Theorem rename_scenario_reports_no_rename :
  map (fun e => (path (fst e), name (metadata (node (fst e))),
                 path (snd e), name (metadata (node (snd e)))))
      (mapElements Examples.computeTotalAST Examples.calculateTotalAST [])
  = [([0], Some "computeTotal", [0], Some "calculateTotal")]
  /\ levenshteinDistance "computeTotal" "calculateTotal" = 5
  /\ Forall (fun e =>
               (calculateSimilarity (node (fst e)) (node (snd e)) == 23 # 28)%Q
               /\ JS.Qltb 0.7%Q
                    (calculateSimilarity (node (fst e)) (node (snd e))) = true)
            (mapElements Examples.computeTotalAST Examples.calculateTotalAST [])
  /\ map (fun c => (path (legacy c), path (refactored c), changes c,
                    hasNameChange (ofChange c)))
         (modified
            (computeASTChanges Examples.computeTotalAST
               Examples.calculateTotalAST
               (mapElements Examples.computeTotalAST
                            Examples.calculateTotalAST [])))
     = [([0], [0], ["Content modified"; "Metadata changed"], false)]
  /\ (forall diffLines createPatch lang,
        ~ In "Rename Symbol"
             (map det_type
                (classify
                   (computeDiffs diffLines createPatch
                      Examples.computeTotalAST Examples.calculateTotalAST
                      (mapElements Examples.computeTotalAST
                                   Examples.calculateTotalAST []))
                   lang))).
Proof.
  split; [vm_compute; reflexivity | ].
  split; [vm_compute; reflexivity | ].
  split; [repeat constructor; vm_compute; reflexivity | ].
  split; [vm_compute; reflexivity | ].
  intros diffLines createPatch lang H.
  apply classify_computeDiffs_types in H. apply H. simpl. tauto.
Qed.

End RenameFacts.

(** ** Element mapper *)

Module MapperFacts.
Import AST Mapper Reference.

Lemma sameObject_iff : forall r1 r2, sameObject r1 r2 = true <-> path r1 = path r2.
Proof.
  intros r1 r2. unfold sameObject.
  destruct (list_eq_dec Nat.eq_dec (path r1) (path r2)); split; congruence.
Qed.

Lemma sameObject_refl : forall r, sameObject r r = true.
Proof. intros r. now apply sameObject_iff. Qed.

Lemma Qltb_lt : forall x y, JS.Qltb x y = true <-> (x < y)%Q.
Proof.
  intros x y. unfold JS.Qltb. rewrite negb_true_iff.
  destruct (Qle_bool y x) eqn:H.
  - apply Qle_bool_iff in H. split; [discriminate | ].
    intros Hlt. exfalso. now apply (Qlt_not_le x y).
  - split; [intros _ | reflexivity].
    apply Qnot_le_lt. intros Hle. apply Qle_bool_iff in Hle. congruence.
Qed.

Lemma Qltb_ge : forall x y, JS.Qltb x y = false <-> (y <= x)%Q.
Proof.
  intros x y. unfold JS.Qltb. rewrite negb_false_iff. apply Qle_bool_iff.
Qed.

(** *** The Map operations *)

Lemma mapHas_iff : forall m k, mapHas m k = true <-> In (path k) (keys m).
Proof.
  intros m k. unfold mapHas, keys. rewrite existsb_exists, in_map_iff. split.
  - intros [e [Hin Hsame]]. exists e. apply sameObject_iff in Hsame. tauto.
  - intros [e [Hp Hin]]. exists e. split; [exact Hin | ].
    now apply sameObject_iff.
Qed.

Lemma mapSet_keys :
  forall m k v,
    keys (mapSet m k v) = if mapHas m k then keys m else keys m ++ [path k].
Proof.
  induction m as [|[k' v'] m IH]; intros k v; simpl.
  - reflexivity.
  - destruct (sameObject k' k) eqn:Hs; simpl.
    + reflexivity.
    + unfold keys in *. simpl. rewrite IH.
      now destruct (mapHas m k).
Qed.

Lemma mapSet_NoDup :
  forall m k v, NoDup (keys m) -> NoDup (keys (mapSet m k v)).
Proof.
  intros m k v Hnd. rewrite mapSet_keys.
  destruct (mapHas m k) eqn:Hhas; [exact Hnd | ].
  apply NoDup_app; [exact Hnd | repeat constructor; simpl; tauto | ].
  intros p Hp [Hp' | []]. subst p.
  apply mapHas_iff in Hp. congruence.
Qed.

Lemma mapSet_entries :
  forall m k v e,
    In e (mapSet m k v) ->
    In e m \/ (snd e = v /\ sameObject k (fst e) = true).
Proof.
  induction m as [|[k' v'] m IH]; intros k v e; simpl.
  - intros [H | []]. subst e. right. split; [reflexivity | apply sameObject_refl].
  - destruct (sameObject k' k) eqn:Hs; simpl.
    + intros [H | H]; [ | tauto]. subst e. right. simpl.
      split; [reflexivity | ].
      apply sameObject_iff. apply sameObject_iff in Hs. congruence.
    + intros [H | H]; [tauto | ].
      destruct (IH k v e H) as [H' | H']; tauto.
Qed.

Lemma mapSet_fresh :
  forall m k v, mapHas m k = false -> mapSet m k v = m ++ [(k, v)].
Proof.
  induction m as [|[k' v'] m IH]; intros k v H; simpl in *.
  - reflexivity.
  - apply orb_false_iff in H. destruct H as [H1 H2].
    rewrite H1. now rewrite IH.
Qed.

(** *** findBestMatch returns the first candidate of greatest similarity *)

Lemma fold_bestMatchStep :
  forall target candidates acc b s,
    fold_left (bestMatchStep target) candidates acc = Some (b, s) ->
    (acc = Some (b, s)
     \/ (In b candidates
         /\ s = calculateSimilarity (node target) (node b)))
    /\ (bestSimilarity acc <= s)%Q
    /\ forall c, In c candidates ->
                 (calculateSimilarity (node target) (node c) <= s)%Q.
Proof.
  intros target candidates.
  induction candidates as [|c candidates IH]; intros acc b s H; simpl in H.
  - subst acc. split; [now left | ]. split; [apply Qle_refl | ].
    intros c [].
  - apply IH in H. destruct H as [Horigin [Hbest Hall]].
    unfold bestMatchStep in Horigin, Hbest.
    destruct (JS.Qltb (bestSimilarity acc)
                      (calculateSimilarity (node target) (node c))) eqn:Hlt.
    + apply Qltb_lt in Hlt. simpl in Hbest. split; [ | split].
      * right. destruct Horigin as [E | [Hin E]].
        -- inversion E; subst. split; [now left | reflexivity].
        -- split; [now right | exact E].
      * apply Qlt_le_weak. eapply Qlt_le_trans; eassumption.
      * intros c' [E | Hin]; [subst c'; exact Hbest | now apply Hall].
    + apply Qltb_ge in Hlt. split; [ | split].
      * destruct Horigin as [E | [Hin E]]; [now left | right].
        split; [now right | exact E].
      * exact Hbest.
      * intros c' [E | Hin]; [subst c' | now apply Hall].
        eapply Qle_trans; eassumption.
Qed.

Lemma findBestMatch_spec :
  forall target candidates b s,
    findBestMatch target candidates = Some (b, s) ->
    In b candidates
    /\ s = calculateSimilarity (node target) (node b)
    /\ forall c, In c candidates ->
                 (calculateSimilarity (node target) (node c) <= s)%Q.
Proof.
  intros target candidates b s H. unfold findBestMatch in H.
  apply fold_bestMatchStep in H. destruct H as [[E | [Hin E]] [_ Hall]].
  - discriminate.
  - tauto.
Qed.

(** *** The two loops of mapElements *)

Section Loops.

Variables legacyAST refactoredAST : Node.
Variable mapHints : list (string * string).

Local Abbreviation wellFormed := (wellFormed legacyAST refactoredAST mapHints).

Lemma hintStep_wellFormed :
  forall m hint,
    In hint mapHints -> wellFormed m ->
    wellFormed (hintStep legacyAST refactoredAST m hint).
Proof.
  intros m hint Hhint [Hnd Hall]. unfold hintStep.
  destruct (findNodeByName legacyAST (fst hint)) as [l|] eqn:Hl;
    [ | now split].
  destruct (findNodeByName refactoredAST (snd hint)) as [r|] eqn:Hr;
    [ | now split].
  split; [now apply mapSet_NoDup | ].
  intros e He. apply mapSet_entries in He. destruct He as [He | [Hv Hk]].
  - now apply Hall.
  - left. exists hint, l. subst r. tauto.
Qed.

Lemma autoStep_wellFormed :
  forall m legacyNode,
    In legacyNode (collectNamedNodes legacyAST) -> wellFormed m ->
    wellFormed (autoStep (collectNamedNodes refactoredAST) m legacyNode).
Proof.
  intros m l Hl [Hnd Hall]. unfold autoStep.
  destruct (mapHas m l) eqn:Hhas; [now split | ].
  destruct (findBestMatch l (collectNamedNodes refactoredAST))
    as [[b s]|] eqn:Hbest; [ | now split].
  destruct (JS.Qltb 0.7%Q s) eqn:Hs; [ | now split].
  split; [now apply mapSet_NoDup | ].
  intros e He. rewrite (mapSet_fresh _ _ _ Hhas) in He.
  apply in_app_iff in He. destruct He as [He | [He | []]].
  - now apply Hall.
  - right. subst e. simpl.
    apply findBestMatch_spec in Hbest. destruct Hbest as [Hin [Hsim Hmax]].
    apply Qltb_lt in Hs. subst s. unfold fromBestMatch. simpl. tauto.
Qed.

Lemma fold_wellFormed :
  forall {A} (step : Mappings -> A -> Mappings) (P : A -> Prop) l m,
    (forall m x, P x -> wellFormed m -> wellFormed (step m x)) ->
    (forall x, In x l -> P x) ->
    wellFormed m -> wellFormed (fold_left step l m).
Proof.
  intros A step P l. induction l as [|x l IH]; intros m Hstep HP Hm; simpl.
  - exact Hm.
  - apply IH; [exact Hstep | intros y Hy; apply HP; now right | ].
    apply Hstep; [apply HP; now left | exact Hm].
Qed.

Lemma mapElements_wellFormed :
  wellFormed (mapElements legacyAST refactoredAST mapHints).
Proof.
  unfold mapElements.
  apply (fold_wellFormed _ (fun l => In l (collectNamedNodes legacyAST)));
    [intros; now apply autoStep_wellFormed | tauto | ].
  apply (fold_wellFormed _ (fun hint => In hint mapHints));
    [intros; now apply hintStep_wellFormed | tauto | ].
  split; [constructor | intros e []].
Qed.

End Loops.

Lemma injective_injectiveb :
  forall m, injective m -> injectiveb m = true.
Proof.
  intros m H. unfold injectiveb.
  apply forallb_forall. intros e1 H1.
  apply forallb_forall. intros e2 H2.
  destruct (sameObject (snd e1) (snd e2)) eqn:Hs; [ | reflexivity].
  simpl. now apply H.
Qed.

(** C1, as the code has it: the mapping is a partial function (no legacy
    object is the key of two entries) and every entry comes either from a
    hint whose two names were found, or from the greedy matching of a named
    legacy node with a best candidate of similarity above 0.7.  Nothing
    keeps two entries from sharing their target. *)
Theorem mapElements_partial_function :
  forall (legacyAST refactoredAST : Node) (mapHints : list (string * string)),
    NoDup (map (fun e => path (fst e))
               (mapElements legacyAST refactoredAST mapHints))
    /\ forall e, In e (mapElements legacyAST refactoredAST mapHints) ->
         fromHint legacyAST refactoredAST mapHints e
         \/ fromBestMatch legacyAST refactoredAST e.
Proof.
  intros legacyAST refactoredAST mapHints.
  exact (mapElements_wellFormed legacyAST refactoredAST mapHints).
Qed.

(** C1 fails as stated: two hints that name the same refactored function,
    and two legacy functions [foo1] and [foo2] whose best candidate is the
    same refactored function [foo] (similarity 7/8), each give a mapping with
    two entries for one target. *)
Lemma mapElements_not_injective :
  ~ injective (mapElements (Examples.functionsProgram ["a"; "b"])
                           (Examples.functionsProgram ["x"])
                           [("a", "x"); ("b", "x")])
  /\ ~ injective (mapElements (Examples.functionsProgram ["foo1"; "foo2"])
                              (Examples.functionsProgram ["foo"]) []).
Proof.
  split; intros H; apply injective_injectiveb in H; vm_compute in H;
    discriminate.
Qed.

Example mapElements_shared_target :
  map (fun e => (path (fst e), name (metadata (node (fst e))),
                 path (snd e), name (metadata (node (snd e)))))
      (mapElements (Examples.functionsProgram ["foo1"; "foo2"])
                   (Examples.functionsProgram ["foo"]) [])
  = [ ([0], Some "foo1", [0], Some "foo");
      ([1], Some "foo2", [0], Some "foo") ].
Proof. vm_compute. reflexivity. Qed.

End MapperFacts.

(** ** levenshteinDistance computes the least cost of an edit script *)

Module LevenshteinFacts.
Import AST Mapper Reference.

Lemma lev_nil_r : forall s, lev s [] = List.length s.
Proof. destruct s; reflexivity. Qed.

Lemma lev_cons :
  forall a b s t,
    lev (a :: s) (b :: t)
    = if Ascii.eqb b a then lev s t
      else min3 (lev s t + 1) (lev s (b :: t) + 1) (lev (a :: s) t + 1).
Proof. reflexivity. Qed.

(** *** Edit scripts *)

Lemma edit_length :
  forall s t n,
    edit s t n ->
    List.length s <= List.length t + n /\ List.length t <= List.length s + n.
Proof. induction 1; simpl; lia. Qed.

Lemma edit_all_delete : forall s, edit s [] (List.length s).
Proof. induction s; simpl; constructor; auto. Qed.

Lemma edit_all_insert : forall t, edit [] t (List.length t).
Proof. induction t; simpl; constructor; auto. Qed.

Lemma edit_zero : forall s t n, edit s t n -> n = 0 -> s = t.
Proof.
  induction 1; intros Hn; try discriminate.
  - reflexivity.
  - f_equal. now apply IHedit.
Qed.

(** Dropping the first character of the target, or of the source, of a
    script costs at most one more. *)
Lemma edit_drop_target :
  forall s u k,
    edit s u k ->
    forall b t, u = b :: t -> exists m, m <= S k /\ edit s t m.
Proof.
  induction 1; intros b' t' E.
  - discriminate.
  - inversion E; subst. exists (S n). split; [lia | now constructor].
  - inversion E; subst. exists (S n). split; [lia | now apply edit_delete].
  - destruct (IHedit _ _ E) as [m [Hm He]].
    exists (S m). split; [lia | now apply edit_delete].
  - inversion E; subst. exists n. split; [lia | assumption].
Qed.

Lemma edit_drop_source :
  forall u t k,
    edit u t k ->
    forall a s, u = a :: s -> exists m, m <= S k /\ edit s t m.
Proof.
  induction 1; intros a' s' E.
  - discriminate.
  - inversion E; subst. exists (S n). split; [lia | now apply edit_insert].
  - inversion E; subst. exists (S n). split; [lia | now apply edit_insert].
  - inversion E; subst. exists n. split; [lia | assumption].
  - destruct (IHedit _ _ E) as [m [Hm He]].
    exists (S m). split; [lia | now apply edit_insert].
Qed.

(** A script between two sequences with the same first character can be
    replaced, at no greater cost, by one that keeps that character. *)
Lemma edit_same_head :
  forall a s t n, edit (a :: s) (a :: t) n -> exists m, m <= n /\ edit s t m.
Proof.
  intros a s t n H. inversion H as [ | ? ? ? ? H' | ? ? ? ? ? H'
                                     | ? ? ? ? H' | ? ? ? ? H' ]; subst.
  - exists n. split; [lia | assumption].
  - eexists. split; [ | eassumption]. lia.
  - destruct (edit_drop_target _ _ _ H' _ _ eq_refl) as [m [Hm He]].
    exists m. split; [lia | assumption].
  - destruct (edit_drop_source _ _ _ H' _ _ eq_refl) as [m [Hm He]].
    exists m. split; [lia | assumption].
Qed.

Lemma edit_app :
  forall s t n,
    edit s t n ->
    forall s' t' n', edit s' t' n' -> edit (s ++ s') (t ++ t') (n + n').
Proof.
  induction 1; intros s' t' n' H'; simpl; try (constructor; auto); auto.
Qed.

Lemma edit_rev : forall s t n, edit s t n -> edit (rev s) (rev t) n.
Proof.
  induction 1; simpl.
  - constructor.
  - replace n with (n + 0) by lia.
    apply edit_app; [assumption | repeat constructor].
  - replace (S n) with (n + 1) by lia.
    apply edit_app; [assumption | repeat constructor].
  - replace (S n) with (n + 1) by lia. rewrite <- (app_nil_r (rev t)).
    apply edit_app; [assumption | repeat constructor].
  - replace (S n) with (n + 1) by lia. rewrite <- (app_nil_r (rev s)).
    apply edit_app; [assumption | repeat constructor].
Qed.

(** *** The recurrence computes the least cost *)

Lemma lev_edit : forall s t, edit s t (lev s t).
Proof.
  induction s as [|a s IHs]; intros t.
  - apply edit_all_insert.
  - induction t as [|b t IHt].
    + apply (edit_all_delete (a :: s)).
    + rewrite lev_cons. destruct (Ascii.eqb b a) eqn:E.
      * apply Ascii.eqb_eq in E. subst b. constructor. apply IHs.
      * unfold min3.
        destruct (Nat.min_dec (Nat.min (lev s t + 1) (lev s (b :: t) + 1))
                              (lev (a :: s) t + 1)) as [E1 | E1]; rewrite E1.
        -- destruct (Nat.min_dec (lev s t + 1) (lev s (b :: t) + 1))
             as [E2 | E2]; rewrite E2; rewrite Nat.add_1_r.
           ++ apply edit_subst, IHs.
           ++ apply edit_delete, IHs.
        -- rewrite Nat.add_1_r. apply edit_insert, IHt.
Qed.

Lemma lev_least :
  forall k s t,
    List.length s + List.length t <= k ->
    forall n, edit s t n -> lev s t <= n.
Proof.
  induction k as [|k IH]; intros s t Hk n He.
  - destruct s, t; simpl in Hk; try lia. simpl. lia.
  - destruct s as [|a s].
    + simpl. apply edit_length in He. simpl in He. lia.
    + destruct t as [|b t].
      * simpl. apply edit_length in He. simpl in He. lia.
      * rewrite lev_cons. simpl in Hk. destruct (Ascii.eqb b a) eqn:E.
        -- apply Ascii.eqb_eq in E. subst b.
           destruct (edit_same_head _ _ _ _ He) as [m [Hm He']].
           assert (lev s t <= m) by (apply IH; [lia | assumption]). lia.
        -- unfold min3.
           inversion He as [ | ? ? ? ? H' | ? ? ? ? ? H'
                             | ? ? ? ? H' | ? ? ? ? H' ]; subst.
           ++ rewrite Ascii.eqb_refl in E. discriminate.
           ++ assert (lev s t <= n0) by (apply IH; [lia | assumption]). lia.
           ++ assert (lev s (b :: t) <= n0)
                by (apply IH; [simpl; lia | assumption]). lia.
           ++ assert (lev (a :: s) t <= n0)
                by (apply IH; [simpl; lia | assumption]). lia.
Qed.

(** *** The rows of the matrix hold the recurrence on the prefixes *)

Lemma rowCells_first :
  forall rest p,
    rowCells p rest [] = seq (List.length p) (S (List.length rest)).
Proof.
  induction rest as [|c rest IH]; intros p; simpl.
  - unfold prefixDistance. simpl. rewrite lev_nil_r, length_rev. reflexivity.
  - unfold prefixDistance at 1. simpl. rewrite lev_nil_r, length_rev. f_equal.
    rewrite IH. rewrite length_app. simpl. rewrite Nat.add_1_r. reflexivity.
Qed.

Lemma rowCells_head :
  forall p rest q,
    rowCells p rest q = prefixDistance p q :: tl (rowCells p rest q).
Proof. intros p rest q. destruct rest; reflexivity. Qed.

Lemma fillRow_rowCells :
  forall c2 rest p q,
    fillRow c2 rest (rowCells p rest q) (prefixDistance p (q ++ [c2]))
    = tl (rowCells p rest (q ++ [c2])).
Proof.
  intros c2 rest. induction rest as [|c1 rest IH]; intros p q; simpl.
  - reflexivity.
  - assert (Hcell :
      (if Ascii.eqb c2 c1 then prefixDistance p q
       else min3 (prefixDistance p q + 1)
                 (prefixDistance p (q ++ [c2]) + 1)
                 (prefixDistance (p ++ [c1]) q + 1))
      = prefixDistance (p ++ [c1]) (q ++ [c2])).
    { unfold prefixDistance. rewrite !rev_app_distr. simpl rev. simpl app.
      rewrite lev_cons. reflexivity. }
    rewrite (rowCells_head (p ++ [c1]) rest q). rewrite Hcell.
    rewrite <- (rowCells_head (p ++ [c1]) rest q).
    rewrite (IH (p ++ [c1]) q).
    now rewrite <- rowCells_head.
Qed.

Lemma nextRow_rowCells :
  forall c2 str1 q,
    nextRow (S (List.length q)) c2 str1 (rowCells [] str1 q)
    = rowCells [] str1 (q ++ [c2]).
Proof.
  intros c2 str1 q. unfold nextRow.
  assert (Hi : S (List.length q) = prefixDistance [] (q ++ [c2])).
  { unfold prefixDistance. simpl. rewrite length_rev, length_app. simpl. lia. }
  rewrite Hi at 2. rewrite fillRow_rowCells. rewrite Hi.
  symmetry. apply rowCells_head.
Qed.

Lemma fillMatrix_rowCells :
  forall str2 str1 q,
    fillMatrix (List.length q) str2 str1 (rowCells [] str1 q)
    = rowCells [] str1 (q ++ str2).
Proof.
  induction str2 as [|c2 str2 IH]; intros str1 q; simpl.
  - now rewrite app_nil_r.
  - rewrite nextRow_rowCells.
    replace (S (List.length q)) with (List.length (q ++ [c2]))
      by (rewrite length_app; simpl; lia).
    rewrite IH. now rewrite <- app_assoc.
Qed.

Lemma rowCells_last :
  forall rest p q d, last (rowCells p rest q) d = prefixDistance (p ++ rest) q.
Proof.
  induction rest as [|c rest IH]; intros p q d.
  - simpl. now rewrite app_nil_r.
  - change (rowCells p (c :: rest) q)
      with (prefixDistance p q :: rowCells (p ++ [c]) rest q).
    rewrite (rowCells_head (p ++ [c]) rest q).
    change (last (prefixDistance p q :: prefixDistance (p ++ [c]) q
                  :: tl (rowCells (p ++ [c]) rest q)) d)
      with (last (prefixDistance (p ++ [c]) q
                  :: tl (rowCells (p ++ [c]) rest q)) d).
    rewrite <- rowCells_head. rewrite IH. now rewrite <- app_assoc.
Qed.

Lemma levenshteinCells_lev :
  forall str1 str2, levenshteinCells str1 str2 = lev (rev str1) (rev str2).
Proof.
  intros str1 str2. unfold levenshteinCells, firstRow.
  replace (seq 0 (S (List.length str1))) with (rowCells [] str1 [])
    by apply (rowCells_first str1 []).
  pose proof (fillMatrix_rowCells str2 str1 []) as H. simpl in H.
  rewrite H. apply rowCells_last.
Qed.

(** The value in the last cell of the matrix is the Levenshtein distance of
    the two strings: the cost of some edit script, and no script is
    cheaper. *)
Lemma levenshteinDistance_least_edit_cost :
  forall str1 str2, isLevenshtein str1 str2 (levenshteinDistance str1 str2).
Proof.
  intros str1 str2. unfold isLevenshtein, levenshteinDistance.
  rewrite levenshteinCells_lev. split.
  - rewrite <- (rev_involutive (list_ascii_of_string str1)) at 1.
    rewrite <- (rev_involutive (list_ascii_of_string str2)) at 1.
    apply edit_rev, lev_edit.
  - intros n He. apply edit_rev in He.
    eapply lev_least; [apply le_n | exact He].
Qed.

Lemma levenshteinDistance_positive :
  forall str1 str2, str1 <> str2 -> 0 < levenshteinDistance str1 str2.
Proof.
  intros str1 str2 Hne.
  destruct (levenshteinDistance_least_edit_cost str1 str2) as [He _].
  destruct (levenshteinDistance str1 str2) as [|d]; [ | lia].
  exfalso. apply Hne. pose proof (edit_zero _ _ _ He eq_refl) as Heq.
  rewrite <- (string_of_list_ascii_of_string str1).
  rewrite <- (string_of_list_ascii_of_string str2). now rewrite Heq.
Qed.

End LevenshteinFacts.

(** ** calculateSimilarity *)

Module SimilarityFacts.
Import AST Mapper Reference LevenshteinFacts MapperFacts.

Lemma length_zero_empty : forall s, String.length s = 0 -> s = EmptyString.
Proof. destruct s; simpl; [reflexivity | discriminate]. Qed.

Lemma maxLength_positive :
  forall name1 name2,
    name1 <> name2 -> 0 < Nat.max (String.length name1) (String.length name2).
Proof.
  intros name1 name2 Hne.
  destruct (Nat.max (String.length name1) (String.length name2)) eqn:E;
    [ | lia].
  exfalso. apply Hne.
  rewrite (length_zero_empty name1) by lia.
  rewrite (length_zero_empty name2) by lia. reflexivity.
Qed.

Lemma ofNat_le : forall a b, a <= b -> (ofNat a <= ofNat b)%Q.
Proof. intros a b H. unfold ofNat, Qle. simpl. lia. Qed.

Lemma ofNat_pos : forall a, 0 < a -> (0 < ofNat a)%Q.
Proof. intros a H. unfold ofNat, Qlt. simpl. lia. Qed.

Lemma typeSimilarity_typePart :
  forall node1 node2, (typeSimilarity node1 node2 == typePart node1 node2)%Q.
Proof.
  intros node1 node2. unfold typeSimilarity, typePart.
  destruct (String.eqb (type node1) (type node2)); reflexivity.
Qed.

Lemma calculateArraySimilarity_parameterPart :
  forall arr1 arr2,
    (calculateArraySimilarity arr1 arr2 == parameterPart arr1 arr2)%Q.
Proof.
  intros arr1 arr2. unfold calculateArraySimilarity, parameterPart.
  destruct arr1, arr2; simpl; reflexivity.
Qed.

Lemma nameSimilarity_namePart :
  forall name1 name2,
    name1 <> name2 ->
    (nameSimilarity name1 name2
     == namePart name1 name2 (levenshteinDistance name1 name2))%Q.
Proof.
  intros name1 name2 Hne. unfold nameSimilarity, namePart.
  apply String.eqb_neq in Hne as Hb. rewrite Hb.
  pose proof (maxLength_positive name1 name2 Hne) as Hpos.
  apply Nat.ltb_lt in Hpos. rewrite Hpos. reflexivity.
Qed.

Lemma calculateSimilarity_same_name :
  forall node1 node2,
    JS.orEmpty (name (metadata node1)) = JS.orEmpty (name (metadata node2)) ->
    (calculateSimilarity node1 node2 == 1)%Q.
Proof.
  intros node1 node2 H. unfold calculateSimilarity. rewrite H.
  rewrite String.eqb_refl. reflexivity.
Qed.

Lemma calculateSimilarity_other_name :
  forall node1 node2,
    JS.orEmpty (name (metadata node1)) <> JS.orEmpty (name (metadata node2)) ->
    (calculateSimilarity node1 node2
     == weightedSum node1 node2
          (levenshteinDistance (JS.orEmpty (name (metadata node1)))
                               (JS.orEmpty (name (metadata node2)))))%Q.
Proof.
  intros node1 node2 Hne. unfold calculateSimilarity, weightedSum.
  apply String.eqb_neq in Hne as Hb. rewrite Hb.
  rewrite (nameSimilarity_namePart _ _ Hne).
  rewrite typeSimilarity_typePart, calculateArraySimilarity_parameterPart.
  ring.
Qed.

Lemma intersection_length :
  forall arr1 arr2, List.length (intersection arr1 arr2) <= List.length arr1.
Proof. intros. unfold intersection. apply filter_length_le. Qed.

Lemma calculateArraySimilarity_le_1 :
  forall arr1 arr2, (calculateArraySimilarity arr1 arr2 <= 1)%Q.
Proof.
  intros arr1 arr2. unfold calculateArraySimilarity.
  destruct ((List.length arr1 =? 0) && (List.length arr2 =? 0)) eqn:E1;
    [unfold Qle; simpl; lia | ].
  destruct ((List.length arr1 =? 0) || (List.length arr2 =? 0)) eqn:E2;
    [unfold Qle; simpl; lia | ].
  apply orb_false_iff in E2. destruct E2 as [E2 E3].
  apply Nat.eqb_neq in E2. apply Nat.eqb_neq in E3.
  apply Qle_shift_div_r; [apply ofNat_pos; lia | ].
  rewrite Qmult_1_l. apply ofNat_le.
  pose proof (intersection_length arr1 arr2). lia.
Qed.

Lemma typeSimilarity_le_1 :
  forall node1 node2, (typeSimilarity node1 node2 <= 1)%Q.
Proof.
  intros. unfold typeSimilarity.
  destruct (String.eqb (type node1) (type node2)); unfold Qle; simpl; lia.
Qed.

Lemma nameSimilarity_lt_1 :
  forall name1 name2, name1 <> name2 -> (nameSimilarity name1 name2 < 1)%Q.
Proof.
  intros name1 name2 Hne. unfold nameSimilarity.
  pose proof (maxLength_positive name1 name2 Hne) as Hpos.
  pose proof (levenshteinDistance_positive name1 name2 Hne) as Hd.
  apply Nat.ltb_lt in Hpos as Hb. rewrite Hb.
  assert (0 < ofNat (levenshteinDistance name1 name2)
              / ofNat (Nat.max (String.length name1) (String.length name2)))%Q.
  { apply Qlt_shift_div_l; [now apply ofNat_pos | ].
    rewrite Qmult_0_l. now apply ofNat_pos. }
  Lqa.lra.
Qed.

Lemma calculateSimilarity_lt_1 :
  forall node1 node2,
    JS.orEmpty (name (metadata node1)) <> JS.orEmpty (name (metadata node2)) ->
    (calculateSimilarity node1 node2 < 1)%Q.
Proof.
  intros node1 node2 Hne. unfold calculateSimilarity.
  apply String.eqb_neq in Hne as Hb. rewrite Hb.
  pose proof (nameSimilarity_lt_1 _ _ Hne).
  pose proof (typeSimilarity_le_1 node1 node2).
  pose proof (calculateArraySimilarity_le_1 (parameters (metadata node1))
                                             (parameters (metadata node2))).
  Lqa.lra.
Qed.

(** C5 fails as stated: two nodes named [put], one a method declaration and
    one a function declaration, score 1 (the names being identical, the
    function returns before it looks at kinds and parameters), while the
    weighted sum for them is 17/20. *)
Lemma calculateSimilarity_same_name_other_kind :
  isLevenshtein "put" "put" 0
  /\ (calculateSimilarity
        (Examples.namedNode "method_declaration" "put" ["int k"])
        (Examples.namedNode "function_declaration" "put" ["int k"]) == 1)%Q
  /\ (weightedSum
        (Examples.namedNode "method_declaration" "put" ["int k"])
        (Examples.namedNode "function_declaration" "put" ["int k"]) 0
      == 17 # 20)%Q
  /\ ~ (calculateSimilarity
          (Examples.namedNode "method_declaration" "put" ["int k"])
          (Examples.namedNode "function_declaration" "put" ["int k"])
        == weightedSum
             (Examples.namedNode "method_declaration" "put" ["int k"])
             (Examples.namedNode "function_declaration" "put" ["int k"]) 0)%Q.
Proof.
  split; [exact (levenshteinDistance_least_edit_cost "put" "put") | ].
  split; [vm_compute; reflexivity | ].
  split; [vm_compute; reflexivity | ].
  vm_compute. discriminate.
Qed.

(** C5, as the code has it: two nodes with the same name score 1 whatever
    their kinds and parameters; two nodes with different names score the
    weighted sum 0.5 * nameSimilarity + 0.3 * typeSimilarity
    + 0.2 * parameterSimilarity, where nameSimilarity is 1 minus the
    Levenshtein distance of the names (the least cost of an edit script,
    which is what the matrix computes) over the longer name's length,
    typeSimilarity is 1 for equal kinds and 0.5 otherwise, and
    parameterSimilarity is the share of the first list's parameters found in
    the second over the longer list's length, 1 for two empty lists and 0
    when exactly one is empty. *)
Theorem calculateSimilarity_weighted_sum_unless_same_name :
  forall node1 node2 : Node,
    (JS.orEmpty (name (metadata node1)) = JS.orEmpty (name (metadata node2)) ->
     (calculateSimilarity node1 node2 == 1)%Q)
    /\ (JS.orEmpty (name (metadata node1))
        <> JS.orEmpty (name (metadata node2)) ->
        isLevenshtein (JS.orEmpty (name (metadata node1)))
                      (JS.orEmpty (name (metadata node2)))
                      (levenshteinDistance
                         (JS.orEmpty (name (metadata node1)))
                         (JS.orEmpty (name (metadata node2))))
        /\ (calculateSimilarity node1 node2
            == weightedSum node1 node2
                 (levenshteinDistance
                    (JS.orEmpty (name (metadata node1)))
                    (JS.orEmpty (name (metadata node2)))))%Q
        /\ (calculateSimilarity node1 node2 < 1)%Q).
Proof.
  intros node1 node2. split.
  - apply calculateSimilarity_same_name.
  - intros Hne. split; [apply levenshteinDistance_least_edit_cost | ].
    split; [now apply calculateSimilarity_other_name
           | now apply calculateSimilarity_lt_1].
Qed.

Lemma calculateSimilarity_weighted_sum_unless_same_name_witness :
  "computeTotal" <> "calculateTotal"
  /\ (calculateSimilarity
        (Examples.namedNode "function_declaration" "computeTotal" [])
        (Examples.namedNode "function_declaration" "calculateTotal" [])
      == weightedSum
           (Examples.namedNode "function_declaration" "computeTotal" [])
           (Examples.namedNode "function_declaration" "calculateTotal" [])
           (levenshteinDistance "computeTotal" "calculateTotal"))%Q.
Proof.
  assert (Hne : "computeTotal" <> "calculateTotal") by discriminate.
  split; [exact Hne | ].
  exact (proj1 (proj2 (proj2
           (calculateSimilarity_weighted_sum_unless_same_name
              (Examples.namedNode "function_declaration" "computeTotal" [])
              (Examples.namedNode "function_declaration" "calculateTotal" []))
           Hne))).
Defined.

Example calculateSimilarity_rename :
  levenshteinDistance "computeTotal" "calculateTotal" = 5
  /\ (calculateSimilarity
        (Examples.namedNode "function_declaration" "computeTotal" [])
        (Examples.namedNode "function_declaration" "calculateTotal" [])
      == 23 # 28)%Q.
Proof. split; vm_compute; reflexivity. Qed.

End SimilarityFacts.

(** ** Identical sources *)

Module UnchangedFacts.
Import AST Mapper Differ Classifier Scorer Scanner Service Reference.
Import MapperFacts SimilarityFacts Unchanged.

Lemma Node_nested_ind :
  forall P : Node -> Prop,
    (forall ty tx lang md cs, Forall P cs -> P (mkNode ty tx lang md cs)) ->
    forall n, P n.
Proof.
  intros P H. fix IH 1. intros [ty tx lang md cs]. apply H.
  induction cs as [|c cs IHcs]; constructor; [apply IH | exact IHcs].
Qed.

Lemma collectNamedNodesAt_truthy :
  forall ast p r,
    In r (collectNamedNodesAt p ast) ->
    JS.truthy (name (metadata (node r))) = true.
Proof.
  induction ast as [ty tx lang md cs IH] using Node_nested_ind.
  intros p r H. simpl in H. apply in_app_iff in H. destruct H as [H | H].
  - destruct (JS.truthy (name md)) eqn:E; [ | contradiction].
    destruct H as [H | []]. subst r. exact E.
  - revert H. generalize 0 as i. induction IH as [|c cs Hc _ IHcs]; intros i H.
    + contradiction.
    + apply in_app_iff in H. destruct H as [H | H].
      * exact (Hc _ _ H).
      * exact (IHcs _ H).
Qed.

Lemma areNodesEquivalent_refl : forall n, areNodesEquivalent n n = true.
Proof.
  intros n. unfold areNodesEquivalent. now rewrite !String.eqb_refl.
Qed.

Lemma filter_nil :
  forall {A} (f : A -> bool) l,
    (forall x, In x l -> f x = false) -> filter f l = [].
Proof.
  intros A f l. induction l as [|x l IH]; intros H; simpl; [reflexivity | ].
  rewrite (H x) by now left. apply IH. intros y Hy. apply H. now right.
Qed.

Lemma findAddedNodes_same_tree :
  forall ast mappings, findAddedNodes ast ast mappings = [].
Proof.
  intros ast mappings. unfold findAddedNodes. apply filter_nil. intros r Hr.
  apply andb_false_iff. right. apply negb_false_iff.
  apply existsb_exists. exists r.
  split; [exact Hr | apply areNodesEquivalent_refl].
Qed.

Lemma findRemovedNodes_same_tree :
  forall ast mappings, findRemovedNodes ast ast mappings = [].
Proof.
  intros ast mappings. unfold findRemovedNodes. apply filter_nil. intros r Hr.
  apply andb_false_iff. right. apply negb_false_iff.
  apply existsb_exists. exists r.
  split; [exact Hr | apply areNodesEquivalent_refl].
Qed.

Lemma NoDup_map_injective :
  forall {A B} (f : A -> B) l x y,
    NoDup (map f l) -> In x l -> In y l -> f x = f y -> x = y.
Proof.
  intros A B f l. induction l as [|a l IH]; intros x y Hnd Hx Hy Hf; simpl in *.
  - contradiction.
  - inversion Hnd as [|? ? Hnotin Hnd']; subst.
    destruct Hx as [Hx | Hx], Hy as [Hy | Hy]; subst.
    + reflexivity.
    + exfalso. apply Hnotin. rewrite Hf. now apply in_map.
    + exfalso. apply Hnotin. rewrite <- Hf. now apply in_map.
    + now apply IH.
Qed.

Lemma truthy_orEmpty_injective :
  forall a b,
    JS.truthy a = true -> JS.truthy b = true ->
    JS.orEmpty a = JS.orEmpty b -> a = b.
Proof.
  intros [a|] [b|] Ha Hb H; simpl in *; try discriminate. now subst.
Qed.

Lemma mapElements_same_tree :
  forall ast e,
    NoDup (map nodeName (collectNamedNodes ast)) ->
    In e (mapElements ast ast []) -> fst e = snd e.
Proof.
  intros ast e Hnd He.
  destruct (mapElements_wellFormed ast ast []) as [_ Hall].
  destruct (Hall e He) as [[hint [l [[] _]]] | [Hl [Hr [_ Hmax]]]].
  apply (NoDup_map_injective nodeName _ _ _ Hnd Hl Hr).
  apply truthy_orEmpty_injective;
    [exact (collectNamedNodesAt_truthy ast [] _ Hl)
    | exact (collectNamedNodesAt_truthy ast [] _ Hr) | ].
  destruct (string_dec (JS.orEmpty (nodeName (fst e)))
                       (JS.orEmpty (nodeName (snd e)))) as [E | E];
    [exact E | exfalso].
  apply calculateSimilarity_lt_1 in E.
  specialize (Hmax (fst e) Hl).
  rewrite (calculateSimilarity_same_name (node (fst e)) (node (fst e))
             eq_refl) in Hmax.
  apply (Qlt_not_le _ _ E Hmax).
Qed.

Lemma findModifiedNodes_same_tree :
  forall ast,
    NoDup (map nodeName (collectNamedNodes ast)) ->
    findModifiedNodes (mapElements ast ast []) = [].
Proof.
  intros ast Hnd. unfold findModifiedNodes.
  assert (H : forall e, In e (mapElements ast ast []) -> fst e = snd e)
    by (intros e He; now apply (mapElements_same_tree ast)).
  induction (mapElements ast ast []) as [|e m IH]; simpl; [reflexivity | ].
  rewrite <- (H e) by now left. rewrite areNodesEquivalent_refl. simpl.
  apply IH. intros e' He'. apply H. now right.
Qed.

Lemma countLines_quiet :
  forall l,
    Forall (fun c => lc_added c = false /\ lc_removed c = false) l ->
    countLines l = (0, 0).
Proof.
  unfold countLines. generalize (0, 0) as acc.
  intros acc l H. revert acc.
  induction H as [|c l [Ha Hr] _ IH]; intros acc; simpl.
  - reflexivity.
  - rewrite Ha, Hr. apply IH.
Qed.

Lemma computeDiffs_same_tree :
  forall diffLines createPatch ast,
    quietDiffLines diffLines -> headerOnlyPatch createPatch ->
    NoDup (map nodeName (collectNamedNodes ast)) ->
    computeDiffs diffLines createPatch ast ast (mapElements ast ast [])
    = unchangedDiffs.
Proof.
  intros diffLines createPatch ast Hq Hh Hnd.
  unfold computeDiffs, computeASTChanges.
  rewrite findAddedNodes_same_tree, findRemovedNodes_same_tree.
  rewrite (findModifiedNodes_same_tree ast Hnd).
  rewrite (countLines_quiet _ (Hq (astToText ast))). rewrite Hh.
  reflexivity.
Qed.

Lemma classify_unchangedDiffs : forall lang, classify unchangedDiffs lang = [].
Proof. intros lang. vm_compute. reflexivity. Qed.

End UnchangedFacts.

Module UnchangedScoreFacts.
Import AST Differ Classifier Scorer Unchanged.
Local Open Scope R_scope.

Lemma Math_round_integer : forall z : Z, Math_round (IZR z) = z.
Proof.
  intros z. unfold Math_round.
  rewrite <- (up_tech (IZR z + / 2) z); [lia | lra | rewrite plus_IZR; lra].
Qed.

Lemma weightedScore_unchanged :
  forall nfiles, weightedScore (mkMetrics 0 nfiles 0 0 0 0 0) = 20.
Proof.
  intros nfiles. unfold weightedScore. simpl.
  rewrite ScorerFacts.normalizeLinesChanged_zero.
  rewrite ScorerFacts.normalizeASTNodes_zero.
  unfold normalizeInfrastructure, normalizeTestCoverage, normalizeComplexity,
    w_linesChanged, w_astNodesChanged, w_newInfrastructure, w_testCoverage,
    w_complexityDelta.
  replace (Rmin (0 * 20) 100) with 0 by (rewrite Rmin_left; lra).
  replace (Rmax ((0 + 50) * 2) 0) with 100 by (rewrite Rmax_left; lra).
  replace (Rmax ((10 - 0) * 5) 0) with 50 by (rewrite Rmax_left; lra).
  replace (Rmin 100 100) with 100 by (rewrite Rmin_left; lra).
  replace (Rmin 50 100) with 50 by (rewrite Rmin_left; lra).
  lra.
Qed.

Lemma calculate_unchanged :
  forall lang,
    overallScore (calculate unchangedDiffs [] lang) = 20%Z
    /\ impactLevel (calculate unchangedDiffs [] lang) = 1%nat.
Proof.
  intros lang. unfold calculate.
  assert (Hs : calculateOverallScore (calculateMetrics unchangedDiffs [] lang)
               = 20%Z).
  { unfold calculateOverallScore.
    change (calculateMetrics unchangedDiffs [] lang)
      with (mkMetrics 0 1 0 0 0 0 0).
    rewrite weightedScore_unchanged.
    replace (Rmax 20 0) with 20 by (rewrite Rmax_left; lra).
    replace (Rmin 20 100) with 20 by (rewrite Rmin_left; lra).
    apply (Math_round_integer 20). }
  simpl overallScore. simpl impactLevel. rewrite Hs. split; [reflexivity | ].
  ScorerFacts.level_cases.
Qed.

End UnchangedScoreFacts.

Module IdenticalSources.
Import AST Mapper Differ Classifier Scorer Scanner Service Reference.
Import Unchanged UnchangedFacts UnchangedScoreFacts.

(** The whole analysis of a request whose two sources are the same text,
    parsed to a tree whose named nodes have pairwise different names. *)
Lemma analyzeCodePair_identical :
  forall parse diffLines createPatch stringMatch request ast,
    quietDiffLines diffLines ->
    headerOnlyPatch createPatch ->
    req_legacy request = req_refactored request ->
    req_mapHints request = [] ->
    parseCode parse (req_refactored request) (req_language request)
    = Some ast ->
    NoDup (map nodeName (collectNamedNodes ast)) ->
    analyzeCodePair parse diffLines createPatch stringMatch request
    = Some (mkResults 20 1 []
              (files unchangedDiffs)
              (scan stringMatch (req_refactored request)
                    (req_language request)
                    (req_includeSecurityScan request))
              (mkMetrics 0 1 0 0 0 0 0)).
Proof.
  intros parse diffLines createPatch stringMatch request ast
         Hq Hh Hsame Hhints Hparse Hnd.
  unfold analyzeCodePair, analyzeTrees.
  rewrite Hsame, Hparse, Hhints.
  rewrite (computeDiffs_same_tree diffLines createPatch ast Hq Hh Hnd).
  rewrite classify_unchangedDiffs.
  destruct (calculate_unchanged (req_language request)) as [Hscore Hlevel].
  rewrite Hscore, Hlevel. reflexivity.
Qed.

Lemma wholeTextDiffLines_quiet : quietDiffLines Examples.wholeTextDiffLines.
Proof.
  intros t. unfold Examples.wholeTextDiffLines. rewrite String.eqb_refl.
  destruct (String.eqb t EmptyString); repeat constructor.
Qed.

Lemma wholeTextCreatePatch_headerOnly :
  headerOnlyPatch Examples.wholeTextCreatePatch.
Proof.
  intros t. unfold Examples.wholeTextCreatePatch.
  now rewrite String.eqb_refl.
Qed.

Lemma addAST_names :
  NoDup (map nodeName
             (collectNamedNodes (normalizeAST Examples.addTree "javascript"))).
Proof. vm_compute. repeat constructor. simpl. tauto. Qed.

(** C4, as the code has it: when the two sources are the same text, no
    hints are given, and the named nodes of the parsed tree have pairwise
    different names, the diff has no added, no removed and no modified node,
    the classifier reports no tag, and the line and node counts of the metrics
    are 0.  The overall score is not 0: the complexity sub-metric of an
    unchanged program sits at mid-scale (50, weight 0.10), so the score is at
    least 5. *)
Theorem identical_sources_empty_diff_positive_score :
  forall (parse : string -> string -> option SyntaxNode)
         (diffLines : string -> string -> list LineChange)
         (createPatch : string -> string -> string -> string)
         (stringMatch : string -> RegExp -> option (list string))
         (request : Request) (ast : Node),
    quietDiffLines diffLines ->
    headerOnlyPatch createPatch ->
    req_legacy request = req_refactored request ->
    req_mapHints request = [] ->
    parseCode parse (req_refactored request) (req_language request)
    = Some ast ->
    NoDup (map nodeName (collectNamedNodes ast)) ->
    computeASTChanges ast ast (mapElements ast ast []) = mkASTChanges [] [] []
    /\ exists results,
         analyzeCodePair parse diffLines createPatch stringMatch request
         = Some results
         /\ res_refactorTypes results = []
         /\ totalLinesChanged (res_metrics results) = 0
         /\ astNodesChanged (res_metrics results) = 0
         /\ (5 <= res_overallScore results)%Z.
Proof.
  intros parse diffLines createPatch stringMatch request ast
         Hq Hh Hsame Hhints Hparse Hnd.
  split.
  - unfold computeASTChanges.
    rewrite findAddedNodes_same_tree, findRemovedNodes_same_tree.
    now rewrite (findModifiedNodes_same_tree ast Hnd).
  - eexists. split.
    + apply (analyzeCodePair_identical parse diffLines createPatch stringMatch
               request ast Hq Hh Hsame Hhints Hparse Hnd).
    + simpl. repeat split. lia.
Qed.

Lemma identical_sources_empty_diff_positive_score_witness :
  quietDiffLines Examples.wholeTextDiffLines
  /\ headerOnlyPatch Examples.wholeTextCreatePatch
  /\ req_legacy Examples.addRequest = req_refactored Examples.addRequest
  /\ req_mapHints Examples.addRequest = []
  /\ parseCode Examples.addParser (req_refactored Examples.addRequest)
               (req_language Examples.addRequest)
     = Some (normalizeAST Examples.addTree "javascript")
  /\ NoDup (map nodeName
                (collectNamedNodes
                   (normalizeAST Examples.addTree "javascript")))
  /\ computeASTChanges
       (normalizeAST Examples.addTree "javascript")
       (normalizeAST Examples.addTree "javascript")
       (mapElements (normalizeAST Examples.addTree "javascript")
                    (normalizeAST Examples.addTree "javascript") [])
     = mkASTChanges [] [] [].
Proof.
  split; [exact wholeTextDiffLines_quiet | ].
  split; [exact wholeTextCreatePatch_headerOnly | ].
  split; [reflexivity | ].
  split; [reflexivity | ].
  split; [reflexivity | ].
  split; [exact addAST_names | ].
  exact (proj1 (identical_sources_empty_diff_positive_score
                  Examples.addParser Examples.wholeTextDiffLines
                  Examples.wholeTextCreatePatch Examples.noMatch
                  Examples.addRequest
                  (normalizeAST Examples.addTree "javascript")
                  wholeTextDiffLines_quiet wholeTextCreatePatch_headerOnly
                  eq_refl eq_refl eq_refl addAST_names)).
Defined.

(** C4 fails as stated: for [function add(a,b){return a+b;}] against itself
    the analysis returns the overall score 20 and the level 1 (an unchanged
    program gets 100 for test coverage, weight 0.15, and 50 for complexity,
    weight 0.10), not 0 and 0. *)
Lemma identical_sources_score_20_level_1 :
  option_map (fun results => (res_overallScore results, res_level results))
    (analyzeCodePair Examples.addParser Examples.wholeTextDiffLines
                     Examples.wholeTextCreatePatch Examples.noMatch
                     Examples.addRequest)
  = Some (20%Z, 1)
  /\ (20 <> 0)%Z /\ 1 <> 0.
Proof.
  rewrite (analyzeCodePair_identical
             Examples.addParser Examples.wholeTextDiffLines
             Examples.wholeTextCreatePatch Examples.noMatch
             Examples.addRequest
             (normalizeAST Examples.addTree "javascript")
             wholeTextDiffLines_quiet wholeTextCreatePatch_headerOnly
             eq_refl eq_refl eq_refl addAST_names).
  split; [reflexivity | split; discriminate].
Qed.

(** Without the condition on the names the modified set need not be empty:
    in a Java class with two overloads of [put], compared with itself, the
    second overload is matched with the first (both candidates score 1 and
    the first one wins) and the pair is reported as modified. *)
Example identical_overloads_are_modified :
  map (fun c => (path (legacy c), path (refactored c), changes c))
      (findModifiedNodes
         (mapElements Examples.overloadsAST Examples.overloadsAST []))
  = [([1], [0], ["Content modified"; "Metadata changed"])].
Proof. vm_compute. reflexivity. Qed.

End IdenticalSources.
